(** * string_hash: a shallow embedding of [src/index.ts]

    The library wraps node's [crypto] module: a [StringHasher] is built from
    optional [StringHashOptions], [generate] produces
    [signature ++ hex(derived ++ salt)] and [validate] recomputes the derived
    bytes from the salt found in a hash and compares.

    Conventions of the embedding.
    - A JavaScript [number] held by a field is an integer, a [Z] (module
      [Double] embeds the constructor on binary64 numbers as well); the
      divisions the source writes ([/ 2], [/ 3]) are exact and land in [Q],
      so that an odd length really yields a fractional byte count. (On
      integers of ordinary size the rounding of [hashLength / 3] is far
      smaller than one third, so it cannot change how [(hashLength / 3) * 2]
      compares with an integer.)
    - A JavaScript string is a [string] of 8-bit code units.
    - A [Buffer] is a [list byte].
    - A [throw] is the [Throw] branch of [result].
    - [randomBytes] consumes an explicit random source; [pbkdf2Sync] is a
      parameter of the development, constrained only by the length of what it
      returns. *)

From Stdlib Require Import ZArith QArith Qround List Bool Lia.
From Stdlib Require Import Strings.String Strings.Ascii Strings.Byte.
From Stdlib Require Floats.
Import ListNotations.

Open Scope string_scope.
Open Scope Z_scope.

(** ** Exceptions and completions *)

(** What the code can throw: an error raised by node's [crypto] (identified by
    its code), or the library's own [StringHashError] with its optional inner
    error. *)
#[warnings="-register-all"]
Inductive Error : Type :=
| NodeError (code : string)
| StringHashError (message : string) (inner : option Error).

Inductive result (A : Type) : Type :=
| Return (a : A)
| Throw (e : Error).

Arguments Return {A} a.
Arguments Throw {A} e.

Definition bind {A B : Type} (r : result A) (k : A -> result B) : result B :=
  match r with
  | Return a => k a
  | Throw e => Throw e
  end.

Notation "'let*' x ':=' r 'in' k" := (bind r (fun x => k))
  (at level 10, x name, r at level 100, k at level 200).

(** [try { return body } catch (e) { throw new StringHashError(message, e) }] *)
Definition try_catch_rethrow {A : Type} (body : result A) (message : string) : result A :=
  match body with
  | Return a => Return a
  | Throw e => Throw (StringHashError message (Some e))
  end.

(** ** JavaScript primitives used by the source *)

Module JS.

(** Truthiness of the two kinds of option values the constructor tests. *)
Definition truthy_string (s : string) : bool := negb (String.eqb s "").
Definition truthy_number (n : Z) : bool := negb (n =? 0).

(** [x < y] on numbers that may be fractional. *)
Definition ltb (x y : Q) : bool :=
  match Qcompare x y with
  | Lt => true
  | _ => false
  end.

(** White space and line terminators of [String.prototype.trim] that fit in a
    code unit below 256: TAB, LF, VT, FF, CR, SP and NBSP. *)
Definition is_white_space (c : ascii) : bool :=
  let n := N_of_ascii c in
  ((9 <=? n) && (n <=? 13) || (n =? 32) || (n =? 160))%N.

Fixpoint trimStart (s : string) : string :=
  match s with
  | EmptyString => EmptyString
  | String c rest => if is_white_space c then trimStart rest else s
  end.

Fixpoint trimEnd (s : string) : string :=
  match s with
  | EmptyString => EmptyString
  | String c rest =>
      match trimEnd rest with
      | EmptyString => if is_white_space c then EmptyString else String c EmptyString
      | kept => String c kept
      end
  end.

Definition trim (s : string) : string := trimEnd (trimStart s).

(** [s.substring(indexStart, indexEnd)]: both indices are clamped to
    [0 .. s.length] and swapped when out of order; an omitted [indexEnd] is
    [s.length]. *)
Definition substring (s : string) (indexStart : Z) (indexEnd : option Z) : string :=
  let len := Z.of_nat (String.length s) in
  let clamp i := Z.min (Z.max i 0) len in
  let a := clamp indexStart in
  let b := match indexEnd with
           | Some e => clamp e
           | None => len
           end in
  String.substring (Z.to_nat (Z.min a b)) (Z.to_nat (Z.max a b - Z.min a b)) s.

End JS.

(** ** Buffers *)

Definition Buffer : Type := list byte.

Module BufferOps.

Definition hexDigit (n : N) : ascii :=
  if (n <? 10)%N then ascii_of_N (48 + n) else ascii_of_N (87 + n).

Definition byteToHex (b : byte) : string :=
  let n := Byte.to_N b in
  String (hexDigit (n / 16)) (String (hexDigit (n mod 16)) EmptyString).

(** [buf.toString("hex")]: two lower-case digits per byte. *)
Fixpoint toString_hex (buf : Buffer) : string :=
  match buf with
  | [] => EmptyString
  | b :: rest => byteToHex b ++ toString_hex rest
  end.

(** Value of a hexadecimal digit, either case. *)
Definition unhex (c : ascii) : option N :=
  let n := N_of_ascii c in
  if ((48 <=? n) && (n <=? 57))%N then Some (n - 48)%N
  else if ((97 <=? n) && (n <=? 102))%N then Some (n - 87)%N
  else if ((65 <=? n) && (n <=? 70))%N then Some (n - 55)%N
  else None.

(** [Buffer.from(s, "hex")]: decodes pairs of digits and stops at the first
    pair that is not hexadecimal; a trailing single character is dropped. *)
Fixpoint from_hex (s : string) : Buffer :=
  match s with
  | String hi (String lo rest) =>
      match unhex hi, unhex lo with
      | Some h, Some l =>
          match Byte.of_N (16 * h + l) with
          | Some b => b :: from_hex rest
          | None => []
          end
      | _, _ => []
      end
  | _ => []
  end.

(** [Buffer.concat([a, b])] *)
Definition concat (bufs : list Buffer) : Buffer := List.concat bufs.

Fixpoint eqb (a b : Buffer) : bool :=
  match a, b with
  | [], [] => true
  | x :: a', y :: b' => Byte.eqb x y && eqb a' b'
  | _, _ => false
  end.

End BufferOps.

(** ** The three functions imported from node's [crypto] *)

(** The random source: the bytes the operating system will deliver, in order. *)
Definition RandomSource : Type := list byte.

(** [randomBytes(size)]: a negative size is refused, a fractional one is
    truncated; a source that cannot deliver [size] bytes makes the call fail. *)
Definition randomBytes (size : Q) (src : RandomSource) : result Buffer * RandomSource :=
  if JS.ltb size 0 then (Throw (NodeError "ERR_OUT_OF_RANGE"), src)
  else
    let n := Z.to_nat (Qfloor size) in
    if (n <=? List.length src)%nat
    then (Return (firstn n src), skipn n src)
    else (Throw (NodeError "ERR_OPERATION_FAILED"), src).

(** [timingSafeEqual(a, b)]: throws when the byte lengths differ. *)
Definition timingSafeEqual (a b : Buffer) : result bool :=
  if (List.length a =? List.length b)%nat
  then Return (BufferOps.eqb a b)
  else Throw (NodeError "ERR_CRYPTO_TIMING_SAFE_EQUAL_LENGTH").

(** ** The data model *)

(** [HmacDigest]: one constructor per string literal of the union type, in the
    order of the source. *)
Inductive HmacDigest : Type :=
| RSA_MD5 | RSA_RIPEMD160 | RSA_SHA1 | RSA_SHA1_2 | RSA_SHA224 | RSA_SHA256
| RSA_SHA3_224 | RSA_SHA3_256 | RSA_SHA3_384 | RSA_SHA3_512 | RSA_SHA384
| RSA_SHA512 | RSA_SHA512_224 | RSA_SHA512_256 | RSA_SM3
| blake2b512 | blake2s256
| id_rsassa_pkcs1_v1_5_with_sha3_224 | id_rsassa_pkcs1_v1_5_with_sha3_256
| id_rsassa_pkcs1_v1_5_with_sha3_384 | id_rsassa_pkcs1_v1_5_with_sha3_512
| md5 | md5_sha1 | md5WithRSAEncryption
| ripemd | ripemd160 | ripemd160WithRSA | rmd160
| sha1 | sha1WithRSAEncryption | sha224 | sha224WithRSAEncryption
| sha256 | sha256WithRSAEncryption
| sha3_224 | sha3_256 | sha3_384 | sha3_512
| sha384 | sha384WithRSAEncryption
| sha512 | sha512_224 | sha512_224WithRSAEncryption
| sha512_256 | sha512_256WithRSAEncryption | sha512WithRSAEncryption
| shake128 | shake256 | sm3 | sm3WithRSAEncryption | ssl3_md5 | ssl3_sha1.

(** [StringHashOptions]: every field is optional; [None] is an absent field. *)
Module StringHashOptions.

Record t : Type := make {
  signature : option string;
  algorythm : option HmacDigest;
  saltLength : option Z;
  hashLength : option Z;
  iterations : option Z
}.

(** The object literal [{}]. *)
Definition empty : t := make None None None None None.

End StringHashOptions.

(** The fields of a [StringHasher] instance. *)
Record StringHasher : Type := {
  signature : string;
  algorythm : HmacDigest;
  saltLength : Z;
  hashLength : Z;
  buffLength : Z;
  iterations : Z
}.

Definition set_signature (this : StringHasher) (v : string) : StringHasher :=
  {| signature := v; algorythm := algorythm this; saltLength := saltLength this;
     hashLength := hashLength this; buffLength := buffLength this;
     iterations := iterations this |}.

Definition set_algorythm (this : StringHasher) (v : HmacDigest) : StringHasher :=
  {| signature := signature this; algorythm := v; saltLength := saltLength this;
     hashLength := hashLength this; buffLength := buffLength this;
     iterations := iterations this |}.

Definition set_saltLength (this : StringHasher) (v : Z) : StringHasher :=
  {| signature := signature this; algorythm := algorythm this; saltLength := v;
     hashLength := hashLength this; buffLength := buffLength this;
     iterations := iterations this |}.

Definition set_hashLength (this : StringHasher) (v : Z) : StringHasher :=
  {| signature := signature this; algorythm := algorythm this; saltLength := saltLength this;
     hashLength := v; buffLength := buffLength this;
     iterations := iterations this |}.

Definition set_buffLength (this : StringHasher) (v : Z) : StringHasher :=
  {| signature := signature this; algorythm := algorythm this; saltLength := saltLength this;
     hashLength := hashLength this; buffLength := v;
     iterations := iterations this |}.

Definition set_iterations (this : StringHasher) (v : Z) : StringHasher :=
  {| signature := signature this; algorythm := algorythm this; saltLength := saltLength this;
     hashLength := hashLength this; buffLength := buffLength this;
     iterations := v |}.

(** The field initialisers of the class, which run before the constructor's
    body. *)
Definition initializers : StringHasher :=
  {| signature := "sha512"; algorythm := sha512; saltLength := 32;
     hashLength := 128; buffLength := 90; iterations := 100000 |}.

(** ** The constructor *)

(** [if (options.f) this.f = g(options.f)]: an absent field and a falsy value
    both leave [this] as it is. *)
Definition assign_if {V : Type} (truthy : V -> bool) (field : option V)
    (set : StringHasher -> V -> StringHasher) (this : StringHasher) : StringHasher :=
  match field with
  | Some v => if truthy v then set this v else this
  | None => this
  end.

(** "Change field values if options present": the five assignments, in order.
    Every digest name is a non-empty string, so a supplied [algorythm] is
    always truthy. *)
Definition assign (options : StringHashOptions.t) (this : StringHasher) : StringHasher :=
  let this := assign_if JS.truthy_string (StringHashOptions.signature options)
                (fun t s => set_signature t (JS.trim s)) this in
  let this := assign_if (fun _ => true) (StringHashOptions.algorythm options)
                set_algorythm this in
  let this := assign_if JS.truthy_number (StringHashOptions.saltLength options)
                set_saltLength this in
  let this := assign_if JS.truthy_number (StringHashOptions.hashLength options)
                set_hashLength this in
  assign_if JS.truthy_number (StringHashOptions.iterations options)
    set_iterations this.

Definition signature_length (this : StringHasher) : Z :=
  Z.of_nat (String.length (signature this)).

(** "Validating values" and "Calculating raw hash buffer length". *)
Definition validating (this : StringHasher) : result StringHasher :=
  if saltLength this <=? 0
  then Throw (StringHashError "Salt length cannot be less than or equals zero." None)
  else if hashLength this <=? 0
  then Throw (StringHashError "Hash length cannot be less than or equals zero." None)
  else if iterations this <? 1000
  then Throw (StringHashError "Iterations count cannot be less than 1000." None)
  else if JS.ltb (inject_Z (hashLength this) / 2)%Q (inject_Z (saltLength this))
  then Throw (StringHashError "Salt length cannot be less than half of hash length." None)
  else if JS.ltb ((inject_Z (hashLength this) / 3) * 2)%Q
                 (inject_Z (saltLength this + signature_length this))
  then Throw (StringHashError
    "Salt length combined with signature length cannot be more than 2/3 of hash length." None)
  else Return (set_buffLength this
                 (hashLength this - saltLength this - signature_length this)).

(** [new StringHasher(options)]; [None] is a call without argument. *)
Definition constructor (options : option StringHashOptions.t) : result StringHasher :=
  match options with
  | None => Return initializers
  | Some options => validating (assign options initializers)
  end.

(** ** The constructor on doubles *)

(** The numeric fields of the source are JavaScript numbers, that is IEEE 754
    binary64 values. [Double] embeds the field initialisers and the
    constructor once more, operation for operation, on Rocq's primitive
    binary64 floats: it can be run on fractional, infinite and huge numbers,
    which the integer fields above cannot hold. While every field is an
    integer of magnitude at most 2^53, each comparison and each subtraction of
    lines 153-162 is exact on doubles too, and the two embeddings compute the
    same instance. *)
Module Double.
Import PrimFloat.

Definition number : Type := float.

(** [s.length] as a number. *)
Definition of_length (n : nat) : number :=
  of_uint63 (Uint63Axioms.of_Z (Z.of_nat n)).

(** An integer as a number. *)
Definition of_Z (z : Z) : number :=
  match z with
  | Z0 => zero
  | Zpos _ => of_uint63 (Uint63Axioms.of_Z z)
  | Zneg p => opp (of_uint63 (Uint63Axioms.of_Z (Zpos p)))
  end.

(** The falsy numbers are [0], [-0] and [NaN]. *)
Definition truthy_number (x : number) : bool := negb (is_zero x || is_nan x).

Module Options.

Record t : Type := make {
  signature : option string;
  algorythm : option HmacDigest;
  saltLength : option number;
  hashLength : option number;
  iterations : option number
}.

End Options.

Record Hasher : Type := hasher {
  signature : string;
  algorythm : HmacDigest;
  saltLength : number;
  hashLength : number;
  buffLength : number;
  iterations : number
}.

Definition initializers : Hasher :=
  hasher "sha512" sha512 (of_Z 32) (of_Z 128) (of_Z 90) (of_Z 100000).

Definition assign (options : Options.t) (this : Hasher) : Hasher :=
  let this :=
    match Options.signature options with
    | Some s =>
        if JS.truthy_string s
        then hasher (JS.trim s) (algorythm this) (saltLength this) (hashLength this)
               (buffLength this) (iterations this)
        else this
    | None => this
    end in
  let this :=
    match Options.algorythm options with
    | Some a =>
        hasher (signature this) a (saltLength this) (hashLength this)
          (buffLength this) (iterations this)
    | None => this
    end in
  let this :=
    match Options.saltLength options with
    | Some n =>
        if truthy_number n
        then hasher (signature this) (algorythm this) n (hashLength this)
               (buffLength this) (iterations this)
        else this
    | None => this
    end in
  let this :=
    match Options.hashLength options with
    | Some n =>
        if truthy_number n
        then hasher (signature this) (algorythm this) (saltLength this) n
               (buffLength this) (iterations this)
        else this
    | None => this
    end in
  match Options.iterations options with
  | Some n =>
      if truthy_number n
      then hasher (signature this) (algorythm this) (saltLength this) (hashLength this)
             (buffLength this) n
      else this
  | None => this
  end.

Definition signature_length (this : Hasher) : number :=
  of_length (String.length (signature this)).

Definition validating (this : Hasher) : result Hasher :=
  if leb (saltLength this) zero
  then Throw (StringHashError "Salt length cannot be less than or equals zero." None)
  else if leb (hashLength this) zero
  then Throw (StringHashError "Hash length cannot be less than or equals zero." None)
  else if ltb (iterations this) (of_Z 1000)
  then Throw (StringHashError "Iterations count cannot be less than 1000." None)
  else if ltb (div (hashLength this) (of_Z 2)) (saltLength this)
  then Throw (StringHashError "Salt length cannot be less than half of hash length." None)
  else if ltb (mul (div (hashLength this) (of_Z 3)) (of_Z 2))
              (add (saltLength this) (signature_length this))
  then Throw (StringHashError
    "Salt length combined with signature length cannot be more than 2/3 of hash length." None)
  else Return (hasher (signature this) (algorythm this) (saltLength this)
                 (hashLength this)
                 (sub (sub (hashLength this) (saltLength this)) (signature_length this))
                 (iterations this)).

Definition constructor (options : option Options.t) : result Hasher :=
  match options with
  | None => Return initializers
  | Some options => validating (assign options initializers)
  end.

(** The exact value of a number, when it is finite, as a reduced fraction. *)
Definition exact (x : number) : option Q :=
  match FloatOps.Prim2SF x with
  | SpecFloat.S754_zero _ => Some 0%Q
  | SpecFloat.S754_finite s m e =>
      Some (Qred (inject_Z (if s then Zneg m else Zpos m) * Qpower 2 e))
  | _ => None
  end.

(** The options and the instances of the integer embedding, on doubles. *)
Definition of_options (o : StringHashOptions.t) : Options.t :=
  match o with
  | StringHashOptions.make sg al sa ha it =>
      Options.make sg al (option_map of_Z sa) (option_map of_Z ha) (option_map of_Z it)
  end.

Definition of_instance (h : StringHasher) : Hasher :=
  match h with
  | Build_StringHasher sg al sa ha bu it =>
      hasher sg al (of_Z sa) (of_Z ha) (of_Z bu) (of_Z it)
  end.

Definition of_result (r : result StringHasher) : result Hasher :=
  match r with
  | Return h => Return (of_instance h)
  | Throw e => Throw e
  end.

(** [f] holds of [lo], [lo + 1], ..., [lo + count - 1]. *)
Definition all_between (f : Z -> bool) (lo : Z) (count : positive) : bool :=
  snd (Pos.iter (fun st => ((fst st + 1)%Z, snd st && f (fst st))) (lo, true) count).

Definition length_bound : Z := 128.
Definition iterations_bound : Z := 131072.

(** The tests the constructor makes on one field, on doubles and on integers. *)
Definition agree_field (z : Z) : bool :=
  Bool.eqb (truthy_number (of_Z z)) (JS.truthy_number z)
  && Bool.eqb (leb (of_Z z) zero) (z <=? 0)%Z
  && Bool.eqb (ltb (of_Z z) (of_Z 1000)) (z <? 1000)%Z.

(** The two tests on the lengths and the subtraction of line 162, on doubles
    and on integers. *)
Definition agree_lengths (h s l : Z) : bool :=
  Bool.eqb (ltb (div (of_Z h) (of_Z 2)) (of_Z s)) (h <? 2 * s)%Z
  && Bool.eqb (ltb (mul (div (of_Z h) (of_Z 3)) (of_Z 2)) (add (of_Z s) (of_Z l)))
       (2 * h <? 3 * (s + l))%Z
  && Leibniz.eqb (sub (sub (of_Z h) (of_Z s)) (of_Z l)) (of_Z (h - s - l)).

(** Options whose numbers are integers within the bounds above, and whose
    signature, once trimmed, is no longer than [length_bound]. *)
Definition small (bound : Z) (field : option Z) : Prop :=
  match field with
  | Some n => (- bound <= n <= bound)%Z
  | None => True
  end.

Definition small_options (o : StringHashOptions.t) : Prop :=
  match o with
  | StringHashOptions.make sg al sa ha it =>
      match sg with
      | Some s => (Z.of_nat (String.length (JS.trim s)) <= length_bound)%Z
      | None => True
      end
      /\ small length_bound sa /\ small length_bound ha /\ small iterations_bound it
  end.

(** A call of the constructor with such options, or with none. *)
Definition small_call (options : option StringHashOptions.t) : Prop :=
  match options with
  | Some o => small_options o
  | None => True
  end.

Definition small_instance (c : StringHasher) : Prop :=
  match c with
  | Build_StringHasher sg al sa ha bu it =>
      (Z.of_nat (String.length sg) <= length_bound)%Z
      /\ (- length_bound <= sa <= length_bound)%Z
      /\ (- length_bound <= ha <= length_bound)%Z
      /\ (- iterations_bound <= it <= iterations_bound)%Z
  end.

(** [{saltLength: Infinity, hashLength: Infinity}] *)
Definition infinite_lengths : Options.t :=
  Options.make None None (Some infinity) (Some infinity) None.

(** [{saltLength: 1, hashLength: 2 ** 54}] *)
Definition huge_hash : Options.t :=
  Options.make None None (Some (of_Z 1)) (Some (of_Z (2 ^ 54))) None.

(** [{saltLength: 1 / 10}] *)
Definition tenth_salt : Options.t :=
  Options.make None None (Some (div (of_Z 1) (of_Z 10))) None None.

(** [{saltLength: 31.5}] *)
Definition fractional_salt : Options.t :=
  Options.make None None (Some (div (of_Z 63) (of_Z 2))) None None.

End Double.

(** ** The methods *)

(** The signature of [pbkdf2Sync(password, salt, iterations, keylen, digest)]. *)
Definition KDF : Type := string -> Buffer -> Z -> Q -> HmacDigest -> result Buffer.

(** All that is assumed of a key derivation function: when it returns, it
    returns [keylen] bytes, a fractional [keylen] counting for its integer
    part. A function that refuses a fractional [keylen] satisfies it as well as
    one that truncates. *)
Definition returns_keylen_bytes (pbkdf2Sync : KDF) : Prop :=
  forall password salt iterations keylen digest derived,
    pbkdf2Sync password salt iterations keylen digest = Return derived ->
    Z.of_nat (List.length derived) = Qfloor keylen.

Section Methods.

Variable pbkdf2Sync : KDF.

Definition generateSalt (this : StringHasher) (src : RandomSource)
    : result Buffer * RandomSource :=
  let (r, src') := randomBytes (inject_Z (saltLength this) / 2)%Q src in
  (try_catch_rethrow r "Unable to generate salt.", src').

Definition generateHash (this : StringHasher) (value : string) (salt : Buffer)
    : result Buffer :=
  try_catch_rethrow
    (pbkdf2Sync value salt (iterations this) (inject_Z (buffLength this) / 2)%Q
       (algorythm this))
    "Unable to generate hash.".

Definition generate (this : StringHasher) (value : string) (src : RandomSource)
    : result string * RandomSource :=
  let (r, src') := generateSalt this src in
  (let* salt := r in
   let* hash := generateHash this value salt in
   Return (signature this ++ BufferOps.toString_hex (BufferOps.concat [hash; salt])),
   src').

Definition validate (this : StringHasher) (value hash : string) : result bool :=
  if (String.length value =? 0)%nat
     || negb (Z.of_nat (String.length hash) =? hashLength this)
  then Return false
  else if negb (String.eqb (signature this)
                  (JS.substring hash 0 (Some (signature_length this))))
  then Return false
  else
    let hashStr := JS.substring hash (signature_length this)
                     (Some (hashLength this - saltLength this)) in
    let saltStr := JS.substring hash (signature_length this + buffLength this) None in
    let saltBuff := BufferOps.from_hex saltStr in
    let hashBuff := BufferOps.from_hex hashStr in
    let* testBuff := generateHash this value saltBuff in
    timingSafeEqual hashBuff testBuff.

(** [hasher.validate(value, hasher.generate(value))] *)
Definition validate_generated (this : StringHasher) (value : string)
    (src : RandomSource) : result bool * RandomSource :=
  let (r, src') := generate this value src in
  (let* hash := r in validate this value hash, src').

End Methods.

(** ** A concrete key derivation function to run the code with *)

Module Sample.

Definition sum_codes (s : string) : N :=
  List.fold_right (fun c acc => (N_of_ascii c + acc)%N) 0%N (list_ascii_of_string s).

Definition sum_bytes (b : Buffer) : N :=
  List.fold_right (fun x acc => (Byte.to_N x + acc)%N) 0%N b.

Definition byte_of (n : N) : byte :=
  match Byte.of_N (n mod 256) with
  | Some b => b
  | None => x00
  end.

(** Byte [i] of the output mixes the password, the salt and the iteration
    count; the output has the integer part of [keylen] bytes. *)
Definition pbkdf2Sync : KDF := fun password salt iterations keylen digest =>
  if JS.ltb keylen 0 then Throw (NodeError "ERR_OUT_OF_RANGE")
  else
    let seed := (sum_codes password + 3 * sum_bytes salt + Z.to_N iterations)%N in
    Return (List.map (fun i => byte_of (seed + 7 * N.of_nat i))
              (List.seq 0 (Z.to_nat (Qfloor keylen)))).

(** The same function, refusing a [keylen] that is not an integer. *)
Definition pbkdf2Sync_strict : KDF := fun password salt iterations keylen digest =>
  if Qeq_bool keylen (inject_Z (Qfloor keylen))
  then pbkdf2Sync password salt iterations keylen digest
  else Throw (NodeError "ERR_OUT_OF_RANGE").

(** Sixty-four bytes of a random source: 1, 2, ..., 64. *)
Definition source : RandomSource :=
  List.map (fun i => byte_of (N.of_nat i)) (List.seq 1 64).

(** The options of the read-me's full example. *)
Definition readme_options : StringHashOptions.t :=
  StringHashOptions.make (Some "hash512") (Some sha512) (Some 32) (Some 128) (Some 100000).

(** The instance built from them. *)
Definition readme_hasher : StringHasher :=
  {| signature := "hash512"; algorythm := sha512; saltLength := 32;
     hashLength := 128; buffLength := 89; iterations := 100000 |}.

(** A key derivation function that fails on every call. *)
Definition unavailable : KDF := fun _ _ _ _ _ =>
  Throw (NodeError "ERR_CRYPTO_OPERATION_FAILED").

(** [n] copies of the character [c]. *)
Definition filler (c : ascii) (n : nat) : string :=
  string_of_list_ascii (List.repeat c n).

(** 128 characters that start with the default signature and carry no
    hexadecimal digit after it. *)
Definition malformed_hash : string := "sha512" ++ filler "z" 122.

(** 128 characters that start with another signature. *)
Definition foreign_hash : string := "sha256" ++ filler "0" 122.

(** The value hashed in the read-me's full example. *)
Definition value : string := "qwe123asd456!@#".

Definition returned (r : result string * RandomSource) : string :=
  match fst r with
  | Return out => out
  | Throw _ => ""
  end.

(** What two successive calls of [generate] return for that instance, that
    value and that random source. *)
Definition first_hash : string :=
  Eval vm_compute in returned (generate pbkdf2Sync readme_hasher value source).

Definition second_hash : string :=
  Eval vm_compute in
    returned (generate pbkdf2Sync readme_hasher value (skipn 16 source)).

(** What [generate] returns for an instance built without options. *)
Definition default_hash : string :=
  Eval vm_compute in returned (generate pbkdf2Sync initializers value source).

(** Options with an odd salt length, and the instance built from them. *)
Definition odd_salt_options : StringHashOptions.t :=
  StringHashOptions.make None None (Some 31) None None.

Definition odd_salt_hasher : StringHasher :=
  {| signature := "sha512"; algorythm := sha512; saltLength := 31;
     hashLength := 128; buffLength := 91; iterations := 100000 |}.

Definition odd_salt_hash : string :=
  Eval vm_compute in returned (generate pbkdf2Sync odd_salt_hasher value source).

(** Options whose signature is white space only, and the instance built from
    them. *)
Definition blank_signature_options : StringHashOptions.t :=
  StringHashOptions.make (Some "  ") None None None None.

Definition blank_signature_hasher : StringHasher :=
  {| signature := ""; algorythm := sha512; saltLength := 32;
     hashLength := 128; buffLength := 96; iterations := 100000 |}.

(** Options with an odd salt length that leave an even buffer length, and
    the instance built from them. *)
Definition short_salt_options : StringHashOptions.t :=
  StringHashOptions.make (Some "hash512") None (Some 31) None None.

Definition short_salt_hasher : StringHasher :=
  {| signature := "hash512"; algorythm := sha512; saltLength := 31;
     hashLength := 128; buffLength := 90; iterations := 100000 |}.

(** Another value than the one hashed. *)
Definition other_value : string := "qwe123asd456!@$".

End Sample.

(** ** The configuration errors, as the specification names them *)

Inductive ConfigError : Type :=
| SaltLengthInvalid
| HashLengthInvalid
| IterationsTooLow
| SaltExceedsHalfOfHash
| SaltPlusSignatureExceedsTwoThirds.

(** The message the constructor throws for each kind. *)
Definition message_of (e : ConfigError) : string :=
  match e with
  | SaltLengthInvalid => "Salt length cannot be less than or equals zero."
  | HashLengthInvalid => "Hash length cannot be less than or equals zero."
  | IterationsTooLow => "Iterations count cannot be less than 1000."
  | SaltExceedsHalfOfHash => "Salt length cannot be less than half of hash length."
  | SaltPlusSignatureExceedsTwoThirds =>
      "Salt length combined with signature length cannot be more than 2/3 of hash length."
  end.




(** ** Options with their falsy values removed *)

Definition absent_if_falsy {V : Type} (truthy : V -> bool) (field : option V) : option V :=
  match field with
  | Some v => if truthy v then Some v else None
  | None => None
  end.

Definition without_falsy (o : StringHashOptions.t) : StringHashOptions.t :=
  StringHashOptions.make
    (absent_if_falsy JS.truthy_string (StringHashOptions.signature o))
    (StringHashOptions.algorythm o)
    (absent_if_falsy JS.truthy_number (StringHashOptions.saltLength o))
    (absent_if_falsy JS.truthy_number (StringHashOptions.hashLength o))
    (absent_if_falsy JS.truthy_number (StringHashOptions.iterations o)).

(** ** Derived notions used in the statements *)

(** What every instance the constructor returns satisfies. *)
Record well_formed (h : StringHasher) : Prop := {
  wf_salt : 0 < saltLength h;
  wf_hash : 0 < hashLength h;
  wf_iterations : 1000 <= iterations h;
  wf_half : 2 * saltLength h <= hashLength h;
  wf_two_thirds : 3 * (saltLength h + signature_length h) <= 2 * hashLength h;
  wf_buff : buffLength h = hashLength h - saltLength h - signature_length h
}.

(** The number of bytes [generateSalt] draws. *)
Definition salt_bytes (this : StringHasher) : nat := Z.to_nat (saltLength this / 2).

(** The two parts [validate] cuts out of a hash, under the names the source
    gives them. *)
Definition hashStr (this : StringHasher) (hash : string) : string :=
  JS.substring hash (signature_length this) (Some (hashLength this - saltLength this)).

Definition saltStr (this : StringHasher) (hash : string) : string :=
  JS.substring hash (signature_length this + buffLength this) None.

(** The options that spell out every field of an instance. *)
Definition options_of (this : StringHasher) : StringHashOptions.t :=
  StringHashOptions.make (Some (signature this)) (Some (algorythm this))
    (Some (saltLength this)) (Some (hashLength this)) (Some (iterations this)).

(** A string that does not start with white space. *)
Definition starts_clean (s : string) : Prop :=
  match s with
  | EmptyString => True
  | String c _ => JS.is_white_space c = false
  end.

(** The lengths of an instance are integers that a double holds exactly: on
    such an instance every operand and every result of lines 153-162 is an
    integer of magnitude at most 2^53, so the source's arithmetic on doubles
    is the arithmetic on integers. *)
Definition exact_lengths (this : StringHasher) : Prop := hashLength this <= 2 ^ 53.

(** * Properties *)

(** ** Arithmetic of the constructor's comparisons *)

Lemma ltb_of_compare (a b : Z) (x y : Q) :
  Qcompare x y = (a ?= b) -> JS.ltb x y = (a <? b).
Proof.
  intros H. unfold JS.ltb, Z.ltb. rewrite H. reflexivity.
Qed.

Lemma ltb_half (h s : Z) :
  JS.ltb (inject_Z h / 2)%Q (inject_Z s) = (h <? 2 * s).
Proof.
  apply ltb_of_compare.
  unfold Qcompare, Qdiv, Qmult, Qinv, inject_Z. cbn -[Z.mul].
  f_equal; lia.
Qed.

Lemma ltb_two_thirds (h t : Z) :
  JS.ltb ((inject_Z h / 3) * 2)%Q (inject_Z t) = (2 * h <? 3 * t).
Proof.
  apply ltb_of_compare.
  unfold Qcompare, Qdiv, Qmult, Qinv, inject_Z. cbn -[Z.mul].
  f_equal; lia.
Qed.

Lemma ltb_zero_half (n : Z) : JS.ltb (inject_Z n / 2)%Q 0 = (n <? 0).
Proof.
  apply ltb_of_compare.
  unfold Qcompare, Qdiv, Qmult, Qinv, inject_Z. cbn -[Z.mul].
  f_equal; lia.
Qed.

Lemma Qfloor_half (n : Z) : Qfloor (inject_Z n / 2)%Q = n / 2.
Proof.
  unfold Qdiv, Qmult, Qinv, inject_Z, Qfloor. cbn -[Z.mul Z.div].
  f_equal; lia.
Qed.

(** ** The constructor *)

(** The checks of [validating], read over the integers. *)
Lemma validating_cases (this : StringHasher) :
  validating this =
  if saltLength this <=? 0 then Throw (StringHashError (message_of SaltLengthInvalid) None)
  else if hashLength this <=? 0 then Throw (StringHashError (message_of HashLengthInvalid) None)
  else if iterations this <? 1000 then Throw (StringHashError (message_of IterationsTooLow) None)
  else if hashLength this <? 2 * saltLength this
  then Throw (StringHashError (message_of SaltExceedsHalfOfHash) None)
  else if 2 * hashLength this <? 3 * (saltLength this + signature_length this)
  then Throw (StringHashError (message_of SaltPlusSignatureExceedsTwoThirds) None)
  else Return (set_buffLength this
                 (hashLength this - saltLength this - signature_length this)).
Proof.
  unfold validating. rewrite ltb_half, ltb_two_thirds. reflexivity.
Qed.

Lemma validating_Return (this h : StringHasher) :
  validating this = Return h ->
  0 < saltLength this /\ 0 < hashLength this /\ 1000 <= iterations this /\
  2 * saltLength this <= hashLength this /\
  3 * (saltLength this + signature_length this) <= 2 * hashLength this /\
  h = set_buffLength this (hashLength this - saltLength this - signature_length this).
Proof.
  rewrite validating_cases.
  destruct (Z.leb_spec (saltLength this) 0); [discriminate|].
  destruct (Z.leb_spec (hashLength this) 0); [discriminate|].
  destruct (Z.ltb_spec (iterations this) 1000); [discriminate|].
  destruct (Z.ltb_spec (hashLength this) (2 * saltLength this)); [discriminate|].
  destruct (Z.ltb_spec (2 * hashLength this)
              (3 * (saltLength this + signature_length this))); [discriminate|].
  intros E. injection E as <-. repeat split; assumption.
Qed.

Lemma initializers_well_formed : well_formed initializers.
Proof.
  split; unfold signature_length; cbn; lia.
Qed.

Lemma constructor_well_formed (options : option StringHashOptions.t) (h : StringHasher) :
  constructor options = Return h -> well_formed h.
Proof.
  destruct options as [o|]; cbn [constructor]; intros E.
  - apply validating_Return in E.
    destruct E as (Hs & Hh & Hi & Hhalf & Htt & ->).
    split; unfold signature_length in *; cbn; try assumption; reflexivity.
  - injection E as <-. apply initializers_well_formed.
Qed.

(** ** The two embeddings of the constructor *)

Lemma all_between_iter (f : Z -> bool) (lo : Z) (count : positive) :
  let st := Pos.iter (fun st => (fst st + 1, snd st && f (fst st))) (lo, true) count in
  fst st = lo + Z.pos count
  /\ (snd st = true -> forall z, lo <= z < lo + Z.pos count -> f z = true).
Proof.
  induction count as [|count IH] using Pos.peano_ind.
  - cbn. split; [reflexivity|]. intros F z B.
    assert (z = lo) by lia. now subst z.
  - rewrite Pos.iter_succ. cbv zeta in IH |- *.
    destruct IH as [P Q]. cbn [fst snd]. split; [lia|].
    intros F z B. apply andb_true_iff in F. destruct F as [F0 F1].
    destruct (Z.eq_dec z (lo + Z.pos count)) as [->|N].
    + now rewrite <- P.
    + apply (Q F0). lia.
Qed.

Lemma all_between_true (f : Z -> bool) (lo : Z) (count : positive) (z : Z) :
  Double.all_between f lo count = true ->
  lo <= z < lo + Z.pos count ->
  f z = true.
Proof.
  intros F. exact (proj2 (all_between_iter f lo count) F z).
Qed.

(** Every integer within [Double.iterations_bound], as a field. *)
Lemma fields_agree_holds :
  Double.all_between Double.agree_field (-131072) 262145 = true.
Proof.
  vm_compute. reflexivity.
Qed.

(** Every positive hash length and salt length up to [Double.length_bound],
    with every signature length up to [Double.length_bound]. *)
Lemma lengths_agree_holds :
  Double.all_between
    (fun h => Double.all_between
                (fun s => Double.all_between (Double.agree_lengths h s) 0 129) 1 128)
    1 128 = true.
Proof.
  vm_compute. reflexivity.
Qed.

Lemma agree_field_within (z : Z) :
  - Double.iterations_bound <= z <= Double.iterations_bound ->
  Double.truthy_number (Double.of_Z z) = JS.truthy_number z
  /\ PrimFloat.leb (Double.of_Z z) PrimFloat.zero = (z <=? 0)
  /\ PrimFloat.ltb (Double.of_Z z) (Double.of_Z 1000) = (z <? 1000).
Proof.
  intros B. unfold Double.iterations_bound in B.
  pose proof (all_between_true Double.agree_field (-131072) 262145 z fields_agree_holds)
    as A.
  specialize (A ltac:(lia)). unfold Double.agree_field in A.
  apply andb_true_iff in A. destruct A as [A A3].
  apply andb_true_iff in A. destruct A as [A1 A2].
  repeat split; now apply Bool.eqb_prop.
Qed.

Lemma agree_lengths_within (h s l : Z) :
  1 <= h <= Double.length_bound -> 1 <= s <= Double.length_bound ->
  0 <= l <= Double.length_bound ->
  PrimFloat.ltb (PrimFloat.div (Double.of_Z h) (Double.of_Z 2)) (Double.of_Z s)
  = (h <? 2 * s)
  /\ PrimFloat.ltb
       (PrimFloat.mul (PrimFloat.div (Double.of_Z h) (Double.of_Z 3)) (Double.of_Z 2))
       (PrimFloat.add (Double.of_Z s) (Double.of_Z l))
     = (2 * h <? 3 * (s + l))
  /\ PrimFloat.sub (PrimFloat.sub (Double.of_Z h) (Double.of_Z s)) (Double.of_Z l)
     = Double.of_Z (h - s - l).
Proof.
  unfold Double.length_bound. intros Bh Bs Bl.
  pose proof (all_between_true
                (fun h => Double.all_between
                            (fun s => Double.all_between (Double.agree_lengths h s) 0 129)
                            1 128)
                1 128 h lengths_agree_holds ltac:(lia)) as A.
  cbv beta in A.
  apply (all_between_true
           (fun s => Double.all_between (Double.agree_lengths h s) 0 129) 1 128 s) in A;
    [|lia].
  apply (all_between_true (Double.agree_lengths h s) 0 129 l) in A; [|lia].
  unfold Double.agree_lengths in A.
  apply andb_true_iff in A. destruct A as [A A3].
  apply andb_true_iff in A. destruct A as [A1 A2].
  split; [now apply Bool.eqb_prop|]. split; [now apply Bool.eqb_prop|].
  now apply FloatAxioms.Leibniz.eqb_spec.
Qed.

Lemma of_length_of_Z (n : nat) : Double.of_length n = Double.of_Z (Z.of_nat n).
Proof.
  unfold Double.of_length, Double.of_Z.
  destruct (Z.of_nat n) eqn:E; [reflexivity|reflexivity|lia].
Qed.

(** On an instance with small integer fields, the tests and the subtraction
    of lines 153-162 give on doubles what they give on integers. *)
Lemma validating_on_doubles (c : StringHasher) :
  Double.small_instance c ->
  Double.validating (Double.of_instance c) = Double.of_result (validating c).
Proof.
  destruct c as [sg al sa ha bu it]. intros (Bl & Bs & Bh & Bi).
  rewrite validating_cases.
  unfold Double.validating, Double.of_instance, Double.signature_length, signature_length.
  cbn [Double.signature Double.algorythm Double.saltLength Double.hashLength
       Double.buffLength Double.iterations
       signature algorythm saltLength hashLength buffLength iterations].
  rewrite of_length_of_Z.
  assert (Bs' : - Double.iterations_bound <= sa <= Double.iterations_bound)
    by (unfold Double.length_bound, Double.iterations_bound in *; lia).
  assert (Bh' : - Double.iterations_bound <= ha <= Double.iterations_bound)
    by (unfold Double.length_bound, Double.iterations_bound in *; lia).
  destruct (agree_field_within sa Bs') as (_ & -> & _).
  destruct (agree_field_within ha Bh') as (_ & -> & _).
  destruct (agree_field_within it Bi) as (_ & _ & ->).
  destruct (Z.leb_spec sa 0) as [|Ps]; [reflexivity|].
  destruct (Z.leb_spec ha 0) as [|Ph]; [reflexivity|].
  destruct (it <? 1000); [reflexivity|].
  destruct (agree_lengths_within ha sa (Z.of_nat (String.length sg)))
    as (-> & -> & ->); [lia|lia|lia|].
  destruct (ha <? 2 * sa); [reflexivity|].
  destruct (2 * ha <? 3 * (sa + Z.of_nat (String.length sg))); reflexivity.
Qed.

Lemma assign_on_doubles (o : StringHashOptions.t) (c : StringHasher) :
  Double.small_options o ->
  Double.assign (Double.of_options o) (Double.of_instance c)
  = Double.of_instance (assign o c).
Proof.
  destruct o as [sg al sa ha it]. destruct c as [csg cal csa cha cbu cit].
  intros (_ & Bs & Bh & Bi).
  unfold Double.small, Double.length_bound, Double.iterations_bound in Bs, Bh, Bi.
  destruct sg as [s|], al as [a|], sa as [n1|], ha as [n2|], it as [n3|];
    unfold Double.assign, Double.of_options, assign, assign_if;
    cbn [Double.Options.signature Double.Options.algorythm Double.Options.saltLength
         Double.Options.hashLength Double.Options.iterations
         StringHashOptions.signature StringHashOptions.algorythm
         StringHashOptions.saltLength StringHashOptions.hashLength
         StringHashOptions.iterations option_map];
    repeat match goal with
      | |- context [Double.truthy_number (Double.of_Z ?n)] =>
          rewrite (proj1 (agree_field_within n
                            ltac:(unfold Double.iterations_bound; lia)))
      end;
    repeat match goal with
      | |- context [JS.truthy_number ?n] => destruct (JS.truthy_number n)
      | |- context [JS.truthy_string ?n] => destruct (JS.truthy_string n)
      end;
    reflexivity.
Qed.

Lemma assign_small (o : StringHashOptions.t) :
  Double.small_options o -> Double.small_instance (assign o initializers).
Proof.
  destruct o as [sg al sa ha it].
  unfold Double.small_options, Double.small, Double.small_instance, assign, assign_if,
    Double.length_bound, Double.iterations_bound.
  cbn [StringHashOptions.signature StringHashOptions.algorythm
       StringHashOptions.saltLength StringHashOptions.hashLength
       StringHashOptions.iterations].
  destruct sg as [s|]; [destruct (JS.truthy_string s)|];
    destruct al as [a|];
    destruct sa as [n1|]; try destruct (JS.truthy_number n1);
    destruct ha as [n2|]; try destruct (JS.truthy_number n2);
    destruct it as [n3|]; try destruct (JS.truthy_number n3);
    cbn; intros (Bl & Bs & Bh & Bi); repeat split; lia.
Qed.

(** On options whose numbers are small integers, the constructor on doubles
    returns, or throws, what the constructor on integers does. *)
Lemma constructor_on_doubles (o : StringHashOptions.t) :
  Double.small_options o ->
  Double.constructor (Some (Double.of_options o))
  = Double.of_result (constructor (Some o)).
Proof.
  intros B. cbn [Double.constructor constructor].
  change Double.initializers with (Double.of_instance initializers).
  rewrite assign_on_doubles by exact B.
  apply validating_on_doubles, assign_small, B.
Qed.

Lemma constructor_call_on_doubles (options : option StringHashOptions.t) (h : StringHasher) :
  constructor options = Return h ->
  Double.small_call options ->
  Double.constructor (option_map Double.of_options options)
  = Return (Double.of_instance h).
Proof.
  destruct options as [o|]; cbn [option_map Double.small_call]; intros E B.
  - rewrite (constructor_on_doubles o B), E. reflexivity.
  - cbn [constructor] in E. injection E as <-. reflexivity.
Qed.

(** C8, amended: an instance the constructor returns, with or without
    options, whose lengths are integers that a double holds exactly
    ([hashLength] at most 2^53), has
    [buffLength = hashLength - saltLength - signature.length], and that number
    is strictly positive. Every operand and both differences lie between 0 and
    2^53, where the subtraction on doubles is the subtraction on integers; and
    when the options are small integers, the constructor run on doubles
    returns this very instance. *)
Theorem buffLength_computed_and_positive_on_integers
    (options : option StringHashOptions.t) (h : StringHasher) :
  constructor options = Return h ->
  exact_lengths h ->
  buffLength h = hashLength h - saltLength h - Z.of_nat (String.length (signature h))
  /\ 0 < buffLength h
  /\ 0 < saltLength h <= 2 ^ 53
  /\ 0 <= hashLength h - saltLength h <= 2 ^ 53
  /\ buffLength h <= 2 ^ 53
  /\ (Double.small_call options ->
      Double.constructor (option_map Double.of_options options)
      = Return (Double.of_instance h)).
Proof.
  intros E B. unfold exact_lengths in B.
  destruct (constructor_well_formed _ _ E) as [Hs Hh _ Hhalf Htt Hb].
  unfold signature_length in *.
  split; [exact Hb|].
  split; [lia|]. split; [lia|]. split; [lia|]. split; [lia|].
  exact (constructor_call_on_doubles _ _ E).
Qed.

Lemma buffLength_on_integers_readme_example :
  buffLength Sample.readme_hasher
  = hashLength Sample.readme_hasher - saltLength Sample.readme_hasher
    - Z.of_nat (String.length (signature Sample.readme_hasher))
  /\ 0 < buffLength Sample.readme_hasher
  /\ 0 < saltLength Sample.readme_hasher <= 2 ^ 53
  /\ 0 <= hashLength Sample.readme_hasher - saltLength Sample.readme_hasher <= 2 ^ 53
  /\ buffLength Sample.readme_hasher <= 2 ^ 53
  /\ (Double.small_call (Some Sample.readme_options) ->
      Double.constructor (option_map Double.of_options (Some Sample.readme_options))
      = Return (Double.of_instance Sample.readme_hasher)).
Proof.
  apply (buffLength_computed_and_positive_on_integers (Some Sample.readme_options)).
  - reflexivity.
  - unfold exact_lengths. cbn. lia.
Defined.

(** C8 as stated fails on doubles. With [saltLength] and [hashLength] both
    [Infinity] the five tests pass and [buffLength] is [NaN], which is not
    greater than 0. With [hashLength = 2^54] and [saltLength = 1] the
    constructor stores 18014398509481978, while
    [hashLength - saltLength - signature.length] is 18014398509481977. With
    [saltLength = 1 / 10] the difference stored is rounded as well. *)
Lemma buffLength_on_doubles :
  (exists d,
      Double.constructor (Some Double.infinite_lengths) = Return d
      /\ PrimFloat.is_nan (Double.buffLength d) = true
      /\ PrimFloat.ltb PrimFloat.zero (Double.buffLength d) = false)
  /\ (exists d,
        Double.constructor (Some Double.huge_hash) = Return d
        /\ Double.exact (Double.hashLength d) = Some (18014398509481984 # 1)
        /\ Double.exact (Double.saltLength d) = Some (1 # 1)
        /\ String.length (Double.signature d) = 6%nat
        /\ Double.exact (Double.buffLength d) = Some (18014398509481978 # 1)
        /\ 18014398509481984 - 1 - 6 = 18014398509481977)
  /\ (exists d,
        Double.constructor (Some Double.tenth_salt) = Return d
        /\ Double.exact (Double.hashLength d) = Some (128 # 1)
        /\ Double.exact (Double.saltLength d)
           = Some (3602879701896397 # 36028797018963968)
        /\ String.length (Double.signature d) = 6%nat
        /\ Double.exact (Double.buffLength d) = Some (4288974957628621 # 35184372088832)
        /\ Qeq_bool ((128 # 1) - (3602879701896397 # 36028797018963968) - (6 # 1))
             (4288974957628621 # 35184372088832) = false).
Proof.
  split; [|split].
  - eexists. split; [vm_compute; reflexivity|]. split; vm_compute; reflexivity.
  - eexists. split; [vm_compute; reflexivity|].
    repeat split; vm_compute; reflexivity.
  - eexists. split; [vm_compute; reflexivity|].
    repeat split; vm_compute; reflexivity.
Qed.

(** The constructor makes no test that a length is an integer:
    [{saltLength: 31.5}] is accepted and gets the buffer length 90.5. *)
Lemma constructor_accepts_fractional_salt :
  exists d,
    Double.constructor (Some Double.fractional_salt) = Return d
    /\ Double.exact (Double.saltLength d) = Some (63 # 2)
    /\ Double.exact (Double.buffLength d) = Some (181 # 2).
Proof.
  eexists. split; [vm_compute; reflexivity|]. split; vm_compute; reflexivity.
Qed.


(** C3: what the constructor yields when fields are absent. Without options,
    and with an options object that has no field, the instance is the class's
    field initialisers: algorithm sha512, salt length 32, hash length 128,
    100000 iterations, and the signature ["sha512"], which is not empty. *)
Theorem absent_fields_keep_initializers :
  constructor None = Return initializers
  /\ constructor (Some StringHashOptions.empty) = Return initializers
  /\ signature initializers = "sha512"
  /\ signature initializers <> ""
  /\ algorythm initializers = sha512
  /\ saltLength initializers = 32
  /\ hashLength initializers = 128
  /\ iterations initializers = 100000.
Proof.
  repeat split; try reflexivity.
  cbn [signature initializers]. discriminate.
Qed.

(** C4: options whose only field is [saltLength = 0] do not make the
    constructor throw: the zero is not assigned, the salt length stays 32 and
    the instance is returned. *)
Theorem zero_saltLength_is_not_rejected :
  constructor (Some (StringHashOptions.make None None (Some 0) None None))
  = Return initializers
  /\ saltLength initializers = 32
  /\ constructor (Some (StringHashOptions.make None None (Some 0) None None))
     <> Throw (StringHashError (message_of SaltLengthInvalid) None).
Proof.
  assert (E : constructor (Some (StringHashOptions.make None None (Some 0) None None))
              = Return initializers) by reflexivity.
  split; [exact E|]. split; [reflexivity|].
  rewrite E. discriminate.
Qed.

Lemma truthy_number_false (n : Z) : JS.truthy_number n = false <-> n = 0.
Proof.
  unfold JS.truthy_number. rewrite negb_false_iff. apply Z.eqb_eq.
Qed.

Lemma truthy_string_false (s : string) : JS.truthy_string s = false <-> s = "".
Proof.
  unfold JS.truthy_string. rewrite negb_false_iff. apply String.eqb_eq.
Qed.

Lemma assign_if_absent_if_falsy {V : Type} (truthy : V -> bool) (field : option V)
    (set : StringHasher -> V -> StringHasher) (this : StringHasher) :
  assign_if truthy (absent_if_falsy truthy field) set this
  = assign_if truthy field set this.
Proof.
  destruct field as [v|]; cbn; [|reflexivity].
  destruct (truthy v) eqn:T; cbn; [rewrite T|]; reflexivity.
Qed.

Lemma assign_without_falsy (o : StringHashOptions.t) (this : StringHasher) :
  assign (without_falsy o) this = assign o this.
Proof.
  unfold assign, without_falsy. cbn [StringHashOptions.signature
    StringHashOptions.algorythm StringHashOptions.saltLength
    StringHashOptions.hashLength StringHashOptions.iterations].
  rewrite !assign_if_absent_if_falsy. reflexivity.
Qed.

(** C10: a supplied field that is falsy (0 for the three numbers, the empty
    string for the signature) is a field that is absent: the constructor does
    the same with the options as with the options from which such fields are
    removed, so the value is neither stored nor checked;
    [{saltLength: 0, iterations: 0}] builds an instance with salt length 32 and
    100000 iterations. *)
Theorem falsy_field_is_absent_field :
  (forall n : Z, JS.truthy_number n = false <-> n = 0)
  /\ (forall s : string, JS.truthy_string s = false <-> s = "")
  /\ (forall o : StringHashOptions.t,
        constructor (Some o) = constructor (Some (without_falsy o)))
  /\ constructor (Some (StringHashOptions.make None None (Some 0) None (Some 0)))
     = Return {| signature := "sha512"; algorythm := sha512; saltLength := 32;
                 hashLength := 128; buffLength := 90; iterations := 100000 |}.
Proof.
  split; [exact truthy_number_false|].
  split; [exact truthy_string_false|].
  split; [|reflexivity].
  intros o. cbn [constructor]. rewrite assign_without_falsy. reflexivity.
Qed.

(** ** Strings *)

Lemma length_append (a b : string) :
  String.length (a ++ b) = (String.length a + String.length b)%nat.
Proof.
  induction a as [|c a IH]; cbn; [reflexivity|]. now rewrite IH.
Qed.

Lemma append_assoc (a b c : string) : (a ++ b) ++ c = a ++ (b ++ c).
Proof.
  induction a as [|x a IH]; cbn; [reflexivity|]. now rewrite IH.
Qed.

Lemma substring_0_min (s : string) (n : nat) :
  String.substring 0 (Nat.min n (String.length s)) s = String.substring 0 n s.
Proof.
  revert n. induction s as [|c s IH]; intros [|n]; cbn; try reflexivity.
  now rewrite IH.
Qed.

Lemma substring_0_length (s : string) : String.substring 0 (String.length s) s = s.
Proof.
  induction s as [|c s IH]; cbn; [reflexivity|]. now rewrite IH.
Qed.

Lemma substring_0_append (a b : string) :
  String.substring 0 (String.length a) (a ++ b) = a.
Proof.
  induction a as [|c a IH]; cbn.
  - destruct b; reflexivity.
  - now rewrite IH.
Qed.

Lemma substring_skip_append (a b : string) (m : nat) :
  String.substring (String.length a) m (a ++ b) = String.substring 0 m b.
Proof.
  induction a as [|c a IH]; cbn; [reflexivity|]. exact IH.
Qed.

(** [hash.substring(0, n)] is the first [n] characters of [hash]. *)
Lemma js_substring_first (s : string) (n : nat) :
  JS.substring s 0 (Some (Z.of_nat n)) = String.substring 0 n s.
Proof.
  unfold JS.substring.
  set (len := Z.of_nat (String.length s)).
  set (a := Z.min (Z.max 0 0) len).
  set (b := Z.min (Z.max (Z.of_nat n) 0) len).
  replace (Z.to_nat (Z.min a b)) with 0%nat by (subst a b len; lia).
  replace (Z.to_nat (Z.max a b - Z.min a b)) with (Nat.min n (String.length s))
    by (subst a b len; lia).
  apply substring_0_min.
Qed.

Lemma js_substring_between (s : string) (i j : Z) :
  0 <= i <= j -> j <= Z.of_nat (String.length s) ->
  JS.substring s i (Some j) = String.substring (Z.to_nat i) (Z.to_nat (j - i)) s.
Proof.
  intros Hij Hj. unfold JS.substring.
  set (len := Z.of_nat (String.length s)) in *.
  replace (Z.min (Z.max i 0) len) with i by lia.
  replace (Z.min (Z.max j 0) len) with j by lia.
  replace (Z.min i j) with i by lia.
  replace (Z.max i j) with j by lia.
  reflexivity.
Qed.

Lemma js_substring_from (s : string) (i : Z) :
  0 <= i <= Z.of_nat (String.length s) ->
  JS.substring s i None
  = String.substring (Z.to_nat i) (Z.to_nat (Z.of_nat (String.length s) - i)) s.
Proof.
  intros Hi. unfold JS.substring.
  set (len := Z.of_nat (String.length s)) in *.
  replace (Z.min (Z.max i 0) len) with i by lia.
  replace (Z.min i len) with i by lia.
  replace (Z.max i len) with len by lia.
  reflexivity.
Qed.

(** ** The fast rejections of [validate] *)

Lemma validate_empty_value (pbkdf2Sync : KDF) (this : StringHasher) (hash : string) :
  validate pbkdf2Sync this "" hash = Return false.
Proof.
  reflexivity.
Qed.

Lemma validate_wrong_length (pbkdf2Sync : KDF) (this : StringHasher) (value hash : string) :
  Z.of_nat (String.length hash) <> hashLength this ->
  validate pbkdf2Sync this value hash = Return false.
Proof.
  intros L. unfold validate.
  destruct (Z.eqb_spec (Z.of_nat (String.length hash)) (hashLength this)) as [E|_];
    [contradiction|].
  now rewrite orb_true_r.
Qed.

Lemma validate_wrong_signature (pbkdf2Sync : KDF) (this : StringHasher) (value hash : string) :
  String.substring 0 (String.length (signature this)) hash <> signature this ->
  validate pbkdf2Sync this value hash = Return false.
Proof.
  intros H. unfold validate.
  destruct (_ || _); [reflexivity|].
  unfold signature_length. rewrite js_substring_first.
  destruct (String.eqb_spec (signature this)
              (String.substring 0 (String.length (signature this)) hash)) as [E|E].
  - now contradiction H.
  - reflexivity.
Qed.

(** C5: whatever the instance and whatever the key derivation function, even
    one that fails on every call, [validate value hash] returns [false] when
    [value] is empty, when [hash] has not [hashLength] characters, or when the
    first [signature.length] characters of [hash] are not the signature: the
    result is reached before any derivation and nothing is thrown. *)
Theorem validate_fast_reject
    (pbkdf2Sync : KDF) (this : StringHasher) (value hash : string) :
  value = ""
  \/ Z.of_nat (String.length hash) <> hashLength this
  \/ String.substring 0 (String.length (signature this)) hash <> signature this ->
  validate pbkdf2Sync this value hash = Return false.
Proof.
  intros [V|[L|S]].
  - subst value. apply validate_empty_value.
  - now apply validate_wrong_length.
  - now apply validate_wrong_signature.
Qed.

Lemma validate_fast_reject_foreign_signature :
  String.substring 0 (String.length (signature initializers)) Sample.foreign_hash
    <> signature initializers
  /\ validate Sample.unavailable initializers "value" Sample.foreign_hash = Return false.
Proof.
  assert (H : String.substring 0 (String.length (signature initializers)) Sample.foreign_hash
              <> signature initializers) by (vm_compute; discriminate).
  split; [exact H|].
  apply (validate_fast_reject Sample.unavailable initializers "value" Sample.foreign_hash).
  right; right; exact H.
Defined.

(** ** Hexadecimal encoding of buffers *)

Lemma length_toString_hex (buf : Buffer) :
  String.length (BufferOps.toString_hex buf) = (2 * List.length buf)%nat.
Proof.
  induction buf as [|b buf IH]; cbn [BufferOps.toString_hex List.length];
    [reflexivity|].
  rewrite length_append, IH. cbn [BufferOps.byteToHex String.length]. lia.
Qed.

Lemma toString_hex_app (a b : Buffer) :
  BufferOps.toString_hex (a ++ b)%list
  = BufferOps.toString_hex a ++ BufferOps.toString_hex b.
Proof.
  induction a as [|x a IH]; cbn [BufferOps.toString_hex List.app String.append];
    [reflexivity|].
  now rewrite IH, append_assoc.
Qed.

(** Decoding the two digits of a byte gives the byte back. *)
Lemma from_hex_byteToHex (b : byte) (rest : string) :
  BufferOps.from_hex (BufferOps.byteToHex b ++ rest) = b :: BufferOps.from_hex rest.
Proof.
  destruct b; reflexivity.
Qed.

Lemma from_hex_toString_hex (buf : Buffer) :
  BufferOps.from_hex (BufferOps.toString_hex buf) = buf.
Proof.
  induction buf as [|b buf IH]; cbn [BufferOps.toString_hex]; [reflexivity|].
  now rewrite from_hex_byteToHex, IH.
Qed.

Lemma toString_hex_inj (a b : Buffer) :
  BufferOps.toString_hex a = BufferOps.toString_hex b -> a = b.
Proof.
  intros E. rewrite <- (from_hex_toString_hex a), <- (from_hex_toString_hex b).
  now rewrite E.
Qed.

Lemma buffer_eqb_refl (a : Buffer) : BufferOps.eqb a a = true.
Proof.
  induction a as [|x a IH]; cbn; [reflexivity|].
  rewrite IH, andb_true_r. now apply Byte.byte_dec_lb.
Qed.

Lemma append_inj_l (s a b : string) : s ++ a = s ++ b -> a = b.
Proof.
  induction s as [|c s IH]; cbn; [trivial|].
  intros E. injection E as E. auto.
Qed.

(** ** What [generate] returns *)

Lemma randomBytes_half (n : Z) (src : RandomSource) :
  randomBytes (inject_Z n / 2)%Q src =
  if n <? 0 then (Throw (NodeError "ERR_OUT_OF_RANGE"), src)
  else if (Z.to_nat (n / 2) <=? List.length src)%nat
  then (Return (firstn (Z.to_nat (n / 2)) src), skipn (Z.to_nat (n / 2)) src)
  else (Throw (NodeError "ERR_OPERATION_FAILED"), src).
Proof.
  unfold randomBytes. rewrite ltb_zero_half, Qfloor_half. reflexivity.
Qed.

(** A call of [generate] that returns has drawn [salt_bytes] bytes, derived a
    key from them, and returned the signature followed by the digits of the
    key and of the salt. *)
Lemma generate_Return (pbkdf2Sync : KDF) (this : StringHasher) (value : string)
    (src src' : RandomSource) (out : string) :
  generate pbkdf2Sync this value src = (Return out, src') ->
  (salt_bytes this <= List.length src)%nat
  /\ src' = skipn (salt_bytes this) src
  /\ exists hash,
       pbkdf2Sync value (firstn (salt_bytes this) src) (iterations this)
         (inject_Z (buffLength this) / 2)%Q (algorythm this) = Return hash
       /\ out = signature this ++ BufferOps.toString_hex hash
                ++ BufferOps.toString_hex (firstn (salt_bytes this) src).
Proof.
  unfold generate, generateSalt, generateHash, salt_bytes.
  rewrite randomBytes_half.
  destruct (saltLength this <? 0); [cbn; discriminate|].
  destruct (Nat.leb_spec (Z.to_nat (saltLength this / 2)) (List.length src)) as [L|L];
    [|cbn; discriminate].
  cbn [try_catch_rethrow bind].
  destruct (pbkdf2Sync value _ (iterations this) _ (algorythm this)) as [hash|e] eqn:K;
    cbn [try_catch_rethrow bind]; [|discriminate].
  intros E. injection E as <- <-.
  split; [exact L|]. split; [reflexivity|].
  exists hash. split; [reflexivity|].
  unfold BufferOps.concat. cbn [List.concat].
  now rewrite app_nil_r, toString_hex_app.
Qed.

(** Its length, for a key derivation function that returns [keylen] bytes: each
    of the two byte counts is the integer part of half a character count. *)
Lemma generate_length (pbkdf2Sync : KDF) (this : StringHasher) (value : string)
    (src src' : RandomSource) (out : string) :
  returns_keylen_bytes pbkdf2Sync ->
  0 <= saltLength this -> 0 <= buffLength this ->
  generate pbkdf2Sync this value src = (Return out, src') ->
  Z.of_nat (String.length out)
  = signature_length this + 2 * (buffLength this / 2) + 2 * (saltLength this / 2).
Proof.
  intros K Hs Hb G.
  apply generate_Return in G. destruct G as (L & _ & hash & D & ->).
  apply K in D. rewrite Qfloor_half in D.
  rewrite !length_append, !length_toString_hex, length_firstn.
  unfold signature_length, salt_bytes in *.
  rewrite Nat.min_l by exact L.
  assert (0 <= saltLength this / 2) by (apply Z.div_pos; lia).
  lia.
Qed.

(** Two calls that drew different salts returned different strings. *)
Lemma generate_distinct_salts (pbkdf2Sync : KDF) (this : StringHasher) (value : string)
    (src1 src1' src2 src2' : RandomSource) (out1 out2 : string) :
  generate pbkdf2Sync this value src1 = (Return out1, src1') ->
  generate pbkdf2Sync this value src2 = (Return out2, src2') ->
  firstn (salt_bytes this) src1 <> firstn (salt_bytes this) src2 ->
  out1 <> out2.
Proof.
  intros G1 G2 D E.
  apply generate_Return in G1. destruct G1 as (L1 & _ & h1 & _ & ->).
  apply generate_Return in G2. destruct G2 as (L2 & _ & h2 & _ & ->).
  apply append_inj_l in E. rewrite <- !toString_hex_app in E.
  apply toString_hex_inj in E.
  set (s1 := firstn (salt_bytes this) src1) in *.
  set (s2 := firstn (salt_bytes this) src2) in *.
  assert (Ls : List.length s1 = List.length s2).
  { subst s1 s2. rewrite !length_firstn. lia. }
  assert (Lh : List.length h1 = List.length h2).
  { apply (f_equal (@List.length byte)) in E. rewrite !length_app in E. lia. }
  apply D.
  apply (f_equal (skipn (List.length h1))) in E.
  rewrite skipn_app, skipn_all, Nat.sub_diag in E.
  rewrite Lh, skipn_app, skipn_all, Nat.sub_diag in E.
  exact E.
Qed.

(** ** [validate] on what [generate] returns *)

(** The hash laid out from a key of [buffLength / 2] bytes and a salt of
    [saltLength / 2] bytes, both lengths even, validates. *)
Lemma validate_layout (pbkdf2Sync : KDF) (this : StringHasher) (value : string)
    (hash salt : Buffer) :
  well_formed this -> value <> "" ->
  2 * Z.of_nat (List.length hash) = buffLength this ->
  2 * Z.of_nat (List.length salt) = saltLength this ->
  pbkdf2Sync value salt (iterations this) (inject_Z (buffLength this) / 2)%Q
    (algorythm this) = Return hash ->
  validate pbkdf2Sync this value
    (signature this ++ BufferOps.toString_hex hash ++ BufferOps.toString_hex salt)
  = Return true.
Proof.
  intros [Hs Hh _ _ _ Hb] V Lh Ls K.
  set (hh := BufferOps.toString_hex hash).
  set (hs := BufferOps.toString_hex salt).
  assert (Lhh : Z.of_nat (String.length hh) = buffLength this).
  { subst hh. rewrite length_toString_hex. lia. }
  assert (Lhs : Z.of_nat (String.length hs) = saltLength this).
  { subst hs. rewrite length_toString_hex. lia. }
  assert (Lout : Z.of_nat (String.length (signature this ++ hh ++ hs)) = hashLength this).
  { rewrite !length_append. unfold signature_length in Hb. lia. }
  unfold validate, generateHash.
  destruct (Nat.eqb_spec (String.length value) 0) as [V0|_].
  { destruct value; [now contradiction V|discriminate]. }
  rewrite Lout, Z.eqb_refl. cbn [orb negb].
  unfold signature_length in *.
  rewrite js_substring_first, substring_0_append, String.eqb_refl. cbn [negb].
  rewrite js_substring_between by lia.
  rewrite Nat2Z.id, substring_skip_append.
  replace (Z.to_nat (hashLength this - saltLength this
                     - Z.of_nat (String.length (signature this))))
    with (String.length hh) by lia.
  rewrite substring_0_append.
  rewrite <- (append_assoc (signature this) hh hs).
  rewrite js_substring_from by (rewrite !length_append; lia).
  replace (Z.to_nat (Z.of_nat (String.length (signature this)) + buffLength this))
    with (String.length (signature this ++ hh)) by (rewrite length_append; lia).
  rewrite substring_skip_append.
  replace (Z.to_nat _) with (String.length hs) by (rewrite !length_append; lia).
  rewrite substring_0_length.
  subst hh hs. rewrite !from_hex_toString_hex, K.
  cbn [try_catch_rethrow bind]. unfold timingSafeEqual.
  now rewrite Nat.eqb_refl, buffer_eqb_refl.
Qed.

(** With an even salt length and an even buffer length, a generated hash
    validates. *)
Lemma validate_generate_even (pbkdf2Sync : KDF) (this : StringHasher) (value : string)
    (src src' : RandomSource) (out : string) :
  returns_keylen_bytes pbkdf2Sync -> well_formed this -> value <> "" ->
  Z.even (saltLength this) = true -> Z.even (buffLength this) = true ->
  generate pbkdf2Sync this value src = (Return out, src') ->
  validate pbkdf2Sync this value out = Return true.
Proof.
  intros C W V Es Eb G.
  assert (Hb : 0 < buffLength this).
  { destruct W as [? ? _ _ Htt Hb]. lia. }
  pose proof (wf_salt _ W) as Hs.
  apply generate_Return in G. destruct G as (L & _ & hash & K & ->).
  pose proof (C _ _ _ _ _ _ K) as Lh. rewrite Qfloor_half in Lh.
  apply Z.even_spec in Es. destruct Es as [s Es].
  apply Z.even_spec in Eb. destruct Eb as [b Eb].
  apply validate_layout; try assumption.
  - rewrite Lh. Z.to_euclidean_division_equations. lia.
  - rewrite length_firstn, Nat.min_l by exact L. unfold salt_bytes.
    Z.to_euclidean_division_equations. lia.
Qed.

(** With an odd salt length or an odd buffer length, a generated hash is
    shorter than [hashLength] and does not validate. *)
Lemma validate_generate_odd (pbkdf2Sync : KDF) (this : StringHasher) (value : string)
    (src src' : RandomSource) (out : string) :
  returns_keylen_bytes pbkdf2Sync -> well_formed this ->
  Z.odd (saltLength this) = true \/ Z.odd (buffLength this) = true ->
  generate pbkdf2Sync this value src = (Return out, src') ->
  Z.of_nat (String.length out) < hashLength this
  /\ validate pbkdf2Sync this value out = Return false.
Proof.
  intros C W O G.
  assert (Hb : 0 < buffLength this).
  { destruct W as [? ? _ _ Htt Hb]. lia. }
  pose proof (wf_salt _ W) as Hs.
  pose proof (wf_buff _ W) as Eb.
  apply (generate_length _ _ _ _ _ _ C) in G; [|lia ..].
  assert (Short : Z.of_nat (String.length out) < hashLength this).
  { destruct O as [O|O]; apply Z.odd_spec in O; destruct O as [k O];
      Z.to_euclidean_division_equations; lia. }
  split; [exact Short|].
  apply validate_wrong_length. lia.
Qed.

(** ** The read-me's example: an odd buffer length *)

Lemma readme_hasher_constructed :
  constructor (Some Sample.readme_options) = Return Sample.readme_hasher.
Proof.
  reflexivity.
Qed.

(** A hash generated for the read-me's instance has 127 characters: the key
    has 44 bytes, the integer part of 89 / 2. *)
Lemma readme_generate_length (pbkdf2Sync : KDF) (value : string)
    (src src' : RandomSource) (out : string) :
  returns_keylen_bytes pbkdf2Sync ->
  generate pbkdf2Sync Sample.readme_hasher value src = (Return out, src') ->
  String.length out = 127%nat.
Proof.
  intros C G.
  apply (generate_length _ _ _ _ _ _ C) in G;
    [|cbn [Sample.readme_hasher saltLength buffLength]; lia ..].
  change (signature_length Sample.readme_hasher) with 7 in G.
  change (buffLength Sample.readme_hasher / 2) with 44 in G.
  change (saltLength Sample.readme_hasher / 2) with 16 in G.
  lia.
Qed.

Lemma readme_validate_generated (pbkdf2Sync : KDF) (value : string)
    (src src' : RandomSource) (out : string) :
  returns_keylen_bytes pbkdf2Sync ->
  generate pbkdf2Sync Sample.readme_hasher value src = (Return out, src') ->
  validate pbkdf2Sync Sample.readme_hasher value out = Return false.
Proof.
  intros C G. apply validate_wrong_length.
  rewrite (readme_generate_length _ _ _ _ _ C G). cbn. discriminate.
Qed.

(** C1, on the instance of the read-me's full example
    ([signature: "hash512"], salt length 32, hash length 128, hence buffer
    length 89): for every key derivation function that returns [keylen] bytes,
    every value and every random source, [validate(value, generate(value))] is
    not [true]; whenever [generate] returns, [validate] returns [false]. *)
Theorem validate_generated_readme_example (pbkdf2Sync : KDF) (value : string)
    (src : RandomSource) :
  returns_keylen_bytes pbkdf2Sync ->
  constructor (Some Sample.readme_options) = Return Sample.readme_hasher
  /\ fst (validate_generated pbkdf2Sync Sample.readme_hasher value src) <> Return true
  /\ (forall out src',
        generate pbkdf2Sync Sample.readme_hasher value src = (Return out, src') ->
        validate pbkdf2Sync Sample.readme_hasher value out = Return false).
Proof.
  intros C. split; [exact readme_hasher_constructed|].
  split.
  - unfold validate_generated.
    destruct (generate pbkdf2Sync Sample.readme_hasher value src) as [[out|e] src'] eqn:G;
      cbn [fst bind].
    + rewrite (readme_validate_generated _ _ _ _ _ C G). discriminate.
    + discriminate.
  - intros out src' G. exact (readme_validate_generated _ _ _ _ _ C G).
Qed.

Lemma sample_returns_keylen_bytes : returns_keylen_bytes Sample.pbkdf2Sync.
Proof.
  intros password salt iterations keylen digest derived.
  unfold Sample.pbkdf2Sync.
  destruct (JS.ltb keylen 0) eqn:N; [discriminate|].
  intros E. injection E as <-.
  rewrite length_map, length_seq.
  apply Z2Nat.id.
  unfold JS.ltb in N. destruct (Qcompare keylen 0) eqn:Cmp; try discriminate.
  - apply Qeq_alt in Cmp. rewrite Cmp. cbn. lia.
  - apply Qgt_alt in Cmp. apply Qlt_le_weak in Cmp.
    change 0 with (Qfloor 0). now apply Qfloor_resp_le.
Qed.

Lemma sample_strict_returns_keylen_bytes : returns_keylen_bytes Sample.pbkdf2Sync_strict.
Proof.
  intros password salt iterations keylen digest derived.
  unfold Sample.pbkdf2Sync_strict.
  destruct (Qeq_bool keylen (inject_Z (Qfloor keylen))); [|discriminate].
  apply sample_returns_keylen_bytes.
Qed.

Lemma validate_generated_readme_example_run :
  fst (validate_generated Sample.pbkdf2Sync Sample.readme_hasher Sample.value Sample.source)
    <> Return true
  /\ generate Sample.pbkdf2Sync Sample.readme_hasher Sample.value Sample.source
     = (Return Sample.first_hash, skipn 16 Sample.source)
  /\ validate Sample.pbkdf2Sync Sample.readme_hasher Sample.value Sample.first_hash
     = Return false.
Proof.
  destruct (validate_generated_readme_example Sample.pbkdf2Sync Sample.value Sample.source
              sample_returns_keylen_bytes) as (_ & N & V).
  split; [exact N|].
  assert (G : generate Sample.pbkdf2Sync Sample.readme_hasher Sample.value Sample.source
              = (Return Sample.first_hash, skipn 16 Sample.source))
    by (vm_compute; reflexivity).
  split; [exact G|].
  exact (V _ _ G).
Defined.

(** ** An odd salt length with an even buffer length *)

(** When the source holds the salt and the derivation returns on it,
    [generate] returns the layout and leaves the rest of the source. *)
Lemma generate_returns (pbkdf2Sync : KDF) (this : StringHasher) (value : string)
    (src : RandomSource) (key : Buffer) :
  0 <= saltLength this ->
  (salt_bytes this <= List.length src)%nat ->
  pbkdf2Sync value (firstn (salt_bytes this) src) (iterations this)
    (inject_Z (buffLength this) / 2)%Q (algorythm this) = Return key ->
  generate pbkdf2Sync this value src
  = (Return (signature this ++ BufferOps.toString_hex key
             ++ BufferOps.toString_hex (firstn (salt_bytes this) src)),
     skipn (salt_bytes this) src).
Proof.
  intros Hs L K.
  unfold generate, generateSalt, generateHash. rewrite randomBytes_half.
  destruct (Z.ltb_spec (saltLength this) 0) as [N|_]; [lia|].
  fold (salt_bytes this).
  destruct (Nat.leb_spec (salt_bytes this) (List.length src)) as [_|N]; [|lia].
  cbn [try_catch_rethrow bind]. rewrite K. cbn [try_catch_rethrow bind].
  unfold BufferOps.concat. cbn [List.concat].
  now rewrite app_nil_r, toString_hex_app.
Qed.

Lemma short_salt_hasher_constructed :
  constructor (Some Sample.short_salt_options) = Return Sample.short_salt_hasher.
Proof.
  reflexivity.
Qed.

Lemma short_salt_hasher_well_formed : well_formed Sample.short_salt_hasher.
Proof.
  exact (constructor_well_formed _ _ short_salt_hasher_constructed).
Qed.

(** C6, on the instance built from [{signature: "hash512", saltLength: 31}]
    (hash length 128, buffer length 90, so the derivation is asked for the
    integer 45): when the source holds 15 bytes and the derivation returns,
    [generate] returns; what it returns is the signature, then the digits of
    the 45 derived bytes, then the digits of the 15 salt bytes; it has 127
    characters, one less than [hashLength]. *)
Theorem generate_short_salt_layout_and_length (pbkdf2Sync : KDF) (value : string)
    (src : RandomSource) (key : Buffer) :
  returns_keylen_bytes pbkdf2Sync ->
  (15 <= List.length src)%nat ->
  pbkdf2Sync value (firstn 15 src) 100000 (inject_Z 90 / 2)%Q sha512 = Return key ->
  constructor (Some Sample.short_salt_options) = Return Sample.short_salt_hasher
  /\ exists out,
       generate pbkdf2Sync Sample.short_salt_hasher value src = (Return out, skipn 15 src)
       /\ out = "hash512" ++ BufferOps.toString_hex key
                ++ BufferOps.toString_hex (firstn 15 src)
       /\ List.length key = 45%nat
       /\ List.length (firstn 15 src) = 15%nat
       /\ String.length out = 127%nat
       /\ Z.of_nat (String.length out) <> hashLength Sample.short_salt_hasher.
Proof.
  intros C L K. split; [exact short_salt_hasher_constructed|].
  pose proof (generate_returns pbkdf2Sync Sample.short_salt_hasher value src key) as G.
  change (salt_bytes Sample.short_salt_hasher) with 15%nat in G.
  specialize (G ltac:(cbn; lia) L K).
  assert (Lk : List.length key = 45%nat).
  { apply C in K. rewrite Qfloor_half in K. change (90 / 2) with 45 in K. lia. }
  assert (Ls : List.length (firstn 15 src) = 15%nat).
  { rewrite length_firstn. lia. }
  eexists. split; [exact G|].
  split; [reflexivity|]. split; [exact Lk|]. split; [exact Ls|].
  assert (L127 : String.length
                   (signature Sample.short_salt_hasher ++ BufferOps.toString_hex key
                    ++ BufferOps.toString_hex (firstn 15 src)) = 127%nat).
  { rewrite !length_append, !length_toString_hex, Lk, Ls. reflexivity. }
  split; [exact L127|]. rewrite L127. cbn. discriminate.
Qed.

Lemma generate_short_salt_layout_and_length_run :
  exists out,
    generate Sample.pbkdf2Sync_strict Sample.short_salt_hasher Sample.value Sample.source
    = (Return out, skipn 15 Sample.source)
    /\ String.length out = 127%nat
    /\ Z.of_nat (String.length out) <> hashLength Sample.short_salt_hasher.
Proof.
  assert (K : exists key,
             Sample.pbkdf2Sync_strict Sample.value (firstn 15 Sample.source) 100000
               (inject_Z 90 / 2)%Q sha512 = Return key)
    by (eexists; vm_compute; reflexivity).
  destruct K as [key K].
  destruct (generate_short_salt_layout_and_length Sample.pbkdf2Sync_strict Sample.value
              Sample.source key sample_strict_returns_keylen_bytes)
    as (_ & out & G & _ & _ & _ & L & N).
  - vm_compute. lia.
  - exact K.
  - exists out. repeat split; assumption.
Defined.

(** C9, on the same instance: two successive calls of [generate] on one value,
    each finding its 15 salt bytes in the source and its derivation returning,
    both return; when the two salts differ the two strings differ, and
    [validate] returns [false] on each of the two. (With an even salt length
    and an even buffer length both validate: [validate_generate_even].) *)
Theorem two_generate_calls_short_salt (pbkdf2Sync : KDF) (value : string)
    (src : RandomSource) (key1 key2 : Buffer) :
  returns_keylen_bytes pbkdf2Sync ->
  (30 <= List.length src)%nat ->
  pbkdf2Sync value (firstn 15 src) 100000 (inject_Z 90 / 2)%Q sha512 = Return key1 ->
  pbkdf2Sync value (firstn 15 (skipn 15 src)) 100000 (inject_Z 90 / 2)%Q sha512
  = Return key2 ->
  firstn 15 src <> firstn 15 (skipn 15 src) ->
  exists out1 out2,
    generate pbkdf2Sync Sample.short_salt_hasher value src = (Return out1, skipn 15 src)
    /\ generate pbkdf2Sync Sample.short_salt_hasher value (skipn 15 src)
       = (Return out2, skipn 15 (skipn 15 src))
    /\ out1 <> out2
    /\ validate pbkdf2Sync Sample.short_salt_hasher value out1 = Return false
    /\ validate pbkdf2Sync Sample.short_salt_hasher value out2 = Return false.
Proof.
  intros C L K1 K2 D.
  pose proof (generate_returns pbkdf2Sync Sample.short_salt_hasher value src key1) as G1.
  pose proof (generate_returns pbkdf2Sync Sample.short_salt_hasher value (skipn 15 src) key2)
    as G2.
  change (salt_bytes Sample.short_salt_hasher) with 15%nat in G1, G2.
  specialize (G1 ltac:(cbn; lia) ltac:(lia) K1).
  specialize (G2 ltac:(cbn; lia) ltac:(rewrite length_skipn; lia) K2).
  assert (O : Z.odd (saltLength Sample.short_salt_hasher) = true
              \/ Z.odd (buffLength Sample.short_salt_hasher) = true)
    by (left; reflexivity).
  do 2 eexists. split; [exact G1|]. split; [exact G2|]. split; [|split].
  - exact (generate_distinct_salts _ _ _ _ _ _ _ _ _ G1 G2 D).
  - exact (proj2 (validate_generate_odd _ _ _ _ _ _ C short_salt_hasher_well_formed O G1)).
  - exact (proj2 (validate_generate_odd _ _ _ _ _ _ C short_salt_hasher_well_formed O G2)).
Qed.

Lemma two_generate_calls_short_salt_run :
  exists out1 out2,
    generate Sample.pbkdf2Sync_strict Sample.short_salt_hasher Sample.value Sample.source
    = (Return out1, skipn 15 Sample.source)
    /\ generate Sample.pbkdf2Sync_strict Sample.short_salt_hasher Sample.value
         (skipn 15 Sample.source)
       = (Return out2, skipn 15 (skipn 15 Sample.source))
    /\ out1 <> out2
    /\ validate Sample.pbkdf2Sync_strict Sample.short_salt_hasher Sample.value out1
       = Return false
    /\ validate Sample.pbkdf2Sync_strict Sample.short_salt_hasher Sample.value out2
       = Return false.
Proof.
  assert (K1 : exists key,
             Sample.pbkdf2Sync_strict Sample.value (firstn 15 Sample.source) 100000
               (inject_Z 90 / 2)%Q sha512 = Return key)
    by (eexists; vm_compute; reflexivity).
  assert (K2 : exists key,
             Sample.pbkdf2Sync_strict Sample.value (firstn 15 (skipn 15 Sample.source))
               100000 (inject_Z 90 / 2)%Q sha512 = Return key)
    by (eexists; vm_compute; reflexivity).
  destruct K1 as [key1 K1]. destruct K2 as [key2 K2].
  apply (two_generate_calls_short_salt Sample.pbkdf2Sync_strict Sample.value Sample.source
           key1 key2 sample_strict_returns_keylen_bytes).
  - vm_compute. lia.
  - exact K1.
  - exact K2.
  - vm_compute. discriminate.
Defined.

(** ** A hash whose digits are not hexadecimal *)

(** Past its two fast rejections, [validate] derives and compares. *)
Lemma validate_slow_path (pbkdf2Sync : KDF) (this : StringHasher) (value hash : string) :
  value <> "" ->
  Z.of_nat (String.length hash) = hashLength this ->
  String.substring 0 (String.length (signature this)) hash = signature this ->
  validate pbkdf2Sync this value hash =
  let* testBuff :=
    generateHash pbkdf2Sync this value
      (BufferOps.from_hex
         (JS.substring hash (signature_length this + buffLength this) None)) in
  timingSafeEqual
    (BufferOps.from_hex
       (JS.substring hash (signature_length this)
          (Some (hashLength this - saltLength this))))
    testBuff.
Proof.
  intros V L S. unfold validate.
  destruct (Nat.eqb_spec (String.length value) 0) as [V0|_].
  { destruct value; [now contradiction V|discriminate]. }
  rewrite L, Z.eqb_refl. cbn [orb negb].
  unfold signature_length. rewrite js_substring_first, S, String.eqb_refl.
  reflexivity.
Qed.

(** When the decoded digits and the derived key differ in length, the
    comparison throws and so does [validate]. *)
Lemma validate_length_mismatch (pbkdf2Sync : KDF) (this : StringHasher)
    (value hash : string) (testBuff : Buffer) :
  value <> "" ->
  Z.of_nat (String.length hash) = hashLength this ->
  String.substring 0 (String.length (signature this)) hash = signature this ->
  pbkdf2Sync value
    (BufferOps.from_hex (JS.substring hash (signature_length this + buffLength this) None))
    (iterations this) (inject_Z (buffLength this) / 2)%Q (algorythm this)
  = Return testBuff ->
  List.length
    (BufferOps.from_hex
       (JS.substring hash (signature_length this)
          (Some (hashLength this - saltLength this))))
  <> List.length testBuff ->
  validate pbkdf2Sync this value hash
  = Throw (NodeError "ERR_CRYPTO_TIMING_SAFE_EQUAL_LENGTH").
Proof.
  intros V L S K N.
  rewrite validate_slow_path by assumption.
  unfold generateHash. rewrite K. cbn [try_catch_rethrow bind].
  unfold timingSafeEqual.
  destruct (Nat.eqb_spec
              (List.length
                 (BufferOps.from_hex
                    (JS.substring hash (signature_length this)
                       (Some (hashLength this - saltLength this)))))
              (List.length testBuff)) as [E|_];
    [contradiction|reflexivity].
Qed.

(** C2, on an instance built without options and the 128 characters
    ["sha512zzz...z"]: the hash passes both fast rejections, its derived part
    decodes to no byte at all, and [validate] throws, for every non-empty value
    and every key derivation function that returns [keylen] bytes: the error
    of [timingSafeEqual] when the derivation returns its 45 bytes, the wrapped
    error of the derivation otherwise. It never returns [false]. *)
Theorem validate_throws_on_malformed_hash (pbkdf2Sync : KDF) (value : string) :
  returns_keylen_bytes pbkdf2Sync ->
  value <> "" ->
  match pbkdf2Sync value [] 100000 (inject_Z 90 / 2)%Q sha512 with
  | Return _ =>
      validate pbkdf2Sync initializers value Sample.malformed_hash
      = Throw (NodeError "ERR_CRYPTO_TIMING_SAFE_EQUAL_LENGTH")
  | Throw e =>
      validate pbkdf2Sync initializers value Sample.malformed_hash
      = Throw (StringHashError "Unable to generate hash." (Some e))
  end
  /\ validate pbkdf2Sync initializers value Sample.malformed_hash <> Return false.
Proof.
  intros C V.
  assert (L : Z.of_nat (String.length Sample.malformed_hash) = hashLength initializers)
    by reflexivity.
  assert (S : String.substring 0 (String.length (signature initializers))
                Sample.malformed_hash = signature initializers)
    by reflexivity.
  assert (Dsalt : BufferOps.from_hex
                    (JS.substring Sample.malformed_hash
                       (signature_length initializers + buffLength initializers) None)
                  = []) by (vm_compute; reflexivity).
  assert (Dhash : BufferOps.from_hex
                    (JS.substring Sample.malformed_hash (signature_length initializers)
                       (Some (hashLength initializers - saltLength initializers)))
                  = []) by (vm_compute; reflexivity).
  destruct (pbkdf2Sync value [] 100000 (inject_Z 90 / 2)%Q sha512) as [testBuff|e] eqn:K.
  - assert (T : validate pbkdf2Sync initializers value Sample.malformed_hash
                = Throw (NodeError "ERR_CRYPTO_TIMING_SAFE_EQUAL_LENGTH")).
    { apply (validate_length_mismatch _ _ _ _ testBuff V L S).
      - rewrite Dsalt. exact K.
      - rewrite Dhash. apply C in K. rewrite Qfloor_half in K.
        change (90 / 2) with 45 in K. cbn [List.length]. lia. }
    split; [exact T|]. rewrite T. discriminate.
  - assert (T : validate pbkdf2Sync initializers value Sample.malformed_hash
                = Throw (StringHashError "Unable to generate hash." (Some e))).
    { rewrite validate_slow_path by assumption.
      rewrite Dsalt. unfold generateHash.
      change (pbkdf2Sync value [] (iterations initializers)
                (inject_Z (buffLength initializers) / 2)%Q (algorythm initializers))
        with (pbkdf2Sync value [] 100000 (inject_Z 90 / 2)%Q sha512).
      rewrite K. reflexivity. }
    split; [exact T|]. rewrite T. discriminate.
Qed.

Lemma validate_throws_on_malformed_hash_run :
  validate Sample.pbkdf2Sync initializers Sample.value Sample.malformed_hash
  = Throw (NodeError "ERR_CRYPTO_TIMING_SAFE_EQUAL_LENGTH")
  /\ validate Sample.pbkdf2Sync initializers Sample.value Sample.malformed_hash
     <> Return false.
Proof.
  pose proof (validate_throws_on_malformed_hash Sample.pbkdf2Sync Sample.value
                sample_returns_keylen_bytes) as T.
  apply T. unfold Sample.value. discriminate.
Defined.

(** With a key derivation function that refuses a fractional [keylen], the
    read-me's instance cannot generate at all. *)
Lemma readme_generate_strict :
  fst (generate Sample.pbkdf2Sync_strict Sample.readme_hasher Sample.value Sample.source)
  = Throw (StringHashError "Unable to generate hash."
             (Some (NodeError "ERR_OUT_OF_RANGE"))).
Proof.
  vm_compute. reflexivity.
Qed.

(** * Further properties of the constructor and the two methods *)

(** ** [generate] *)

Lemma constructor_saltLength_pos (options : option StringHashOptions.t) (this : StringHasher) :
  constructor options = Return this -> 0 < saltLength this.
Proof.
  intros E. exact (wf_salt _ (constructor_well_formed _ _ E)).
Qed.

Lemma firstn_length_app {A : Type} (l1 l2 : list A) :
  firstn (List.length l1) (l1 ++ l2) = l1.
Proof.
  rewrite firstn_app, firstn_all, Nat.sub_diag. cbn. apply app_nil_r.
Qed.

Lemma skipn_length_app {A : Type} (l1 l2 : list A) :
  skipn (List.length l1) (l1 ++ l2) = l2.
Proof.
  rewrite skipn_app, skipn_all, Nat.sub_diag. reflexivity.
Qed.

(** X1: for an instance the constructor returned whose salt length and buffer
    length are both even, a string [generate] returns for a non-empty value has
    exactly [hashLength] characters and [validate] returns [true] on it. *)
Theorem generate_validate_round_trip (pbkdf2Sync : KDF)
    (options : option StringHashOptions.t) (this : StringHasher) (value : string)
    (src src' : RandomSource) (out : string) :
  returns_keylen_bytes pbkdf2Sync ->
  constructor options = Return this ->
  Z.even (saltLength this) = true -> Z.even (buffLength this) = true ->
  value <> "" ->
  generate pbkdf2Sync this value src = (Return out, src') ->
  Z.of_nat (String.length out) = hashLength this
  /\ validate pbkdf2Sync this value out = Return true.
Proof.
  intros C E Es Eb V G.
  pose proof (constructor_well_formed _ _ E) as W.
  split.
  - destruct W as [Hs Hh _ _ Htt Hb].
    apply (generate_length _ _ _ _ _ _ C) in G; [|lia ..].
    apply Z.even_spec in Es. destruct Es as [s Es].
    apply Z.even_spec in Eb. destruct Eb as [b Eb].
    Z.to_euclidean_division_equations. lia.
  - exact (validate_generate_even _ _ _ _ _ _ C W V Es Eb G).
Qed.

Lemma generate_validate_round_trip_default :
  Z.of_nat (String.length Sample.default_hash) = hashLength initializers
  /\ validate Sample.pbkdf2Sync initializers Sample.value Sample.default_hash = Return true.
Proof.
  apply (generate_validate_round_trip Sample.pbkdf2Sync None initializers Sample.value
           Sample.source (skipn 16 Sample.source) Sample.default_hash
           sample_returns_keylen_bytes).
  - reflexivity.
  - reflexivity.
  - reflexivity.
  - unfold Sample.value. discriminate.
  - vm_compute; reflexivity.
Defined.

(** X2: for an instance the constructor returned whose salt length or buffer
    length is odd, every string [generate] returns is shorter than
    [hashLength], and [validate] returns [false] on it. *)
Theorem odd_lengths_never_validate (pbkdf2Sync : KDF)
    (options : option StringHashOptions.t) (this : StringHasher) (value : string)
    (src src' : RandomSource) (out : string) :
  returns_keylen_bytes pbkdf2Sync ->
  constructor options = Return this ->
  Z.odd (saltLength this) = true \/ Z.odd (buffLength this) = true ->
  generate pbkdf2Sync this value src = (Return out, src') ->
  Z.of_nat (String.length out) < hashLength this
  /\ validate pbkdf2Sync this value out = Return false.
Proof.
  intros C E O G.
  apply (validate_generate_odd _ _ _ _ _ _ C (constructor_well_formed _ _ E) O G).
Qed.

Lemma odd_lengths_never_validate_salt_31 :
  Z.of_nat (String.length Sample.odd_salt_hash) < hashLength Sample.odd_salt_hasher
  /\ validate Sample.pbkdf2Sync Sample.odd_salt_hasher Sample.value Sample.odd_salt_hash
     = Return false.
Proof.
  apply (odd_lengths_never_validate Sample.pbkdf2Sync (Some Sample.odd_salt_options)
           Sample.odd_salt_hasher Sample.value Sample.source (skipn 15 Sample.source)
           Sample.odd_salt_hash sample_returns_keylen_bytes).
  - reflexivity.
  - left. reflexivity.
  - vm_compute; reflexivity.
Defined.

(** X3: [generate] returns exactly when the random source starts with
    [saltLength / 2] (integer part) bytes on which the derivation returns; it
    then returns the signature, the digits of the key and the digits of those
    bytes, and leaves the rest of the source for the next call. *)
Theorem generate_returns_iff (pbkdf2Sync : KDF)
    (options : option StringHashOptions.t) (this : StringHasher) (value : string)
    (src src' : RandomSource) (out : string) :
  constructor options = Return this ->
  generate pbkdf2Sync this value src = (Return out, src') <->
  exists salt key : Buffer,
    src = (salt ++ src')%list
    /\ List.length salt = salt_bytes this
    /\ pbkdf2Sync value salt (iterations this) (inject_Z (buffLength this) / 2)%Q
         (algorythm this) = Return key
    /\ out = signature this ++ BufferOps.toString_hex key ++ BufferOps.toString_hex salt.
Proof.
  intros E. pose proof (constructor_saltLength_pos _ _ E) as Hs. split.
  - intros G. apply generate_Return in G. destruct G as (L & -> & key & K & ->).
    exists (firstn (salt_bytes this) src), key.
    split; [symmetry; apply firstn_skipn|].
    split; [rewrite length_firstn; lia|].
    split; [exact K|reflexivity].
  - intros (salt & key & -> & L & K & ->).
    unfold generate, generateSalt, generateHash. rewrite randomBytes_half.
    destruct (Z.ltb_spec (saltLength this) 0) as [N|_]; [lia|].
    fold (salt_bytes this). rewrite <- L.
    destruct (Nat.leb_spec (List.length salt) (List.length (salt ++ src')%list)) as [_|N];
      [|rewrite length_app in N; lia].
    rewrite firstn_length_app, skipn_length_app.
    cbn [try_catch_rethrow bind]. rewrite K. cbn [try_catch_rethrow bind].
    unfold BufferOps.concat. cbn [List.concat].
    now rewrite app_nil_r, toString_hex_app.
Qed.

Lemma generate_returns_iff_default :
  generate Sample.pbkdf2Sync initializers Sample.value Sample.source
  = (Return Sample.default_hash, skipn 16 Sample.source)
  <-> exists salt key : Buffer,
        Sample.source = (salt ++ skipn 16 Sample.source)%list
        /\ List.length salt = salt_bytes initializers
        /\ Sample.pbkdf2Sync Sample.value salt (iterations initializers)
             (inject_Z (buffLength initializers) / 2)%Q (algorythm initializers)
           = Return key
        /\ Sample.default_hash
           = signature initializers ++ BufferOps.toString_hex key
             ++ BufferOps.toString_hex salt.
Proof.
  apply (generate_returns_iff Sample.pbkdf2Sync None initializers). reflexivity.
Defined.

(** X4: when the random source holds fewer bytes than the salt needs,
    [generate] throws the error "Unable to generate salt." wrapping the cause,
    whatever the key derivation function, and takes nothing from the source. *)
Theorem generate_source_too_short (pbkdf2Sync : KDF)
    (options : option StringHashOptions.t) (this : StringHasher) (value : string)
    (src : RandomSource) :
  constructor options = Return this ->
  (List.length src < salt_bytes this)%nat ->
  exists cause,
    generate pbkdf2Sync this value src
    = (Throw (StringHashError "Unable to generate salt." (Some cause)), src).
Proof.
  intros E L. pose proof (constructor_saltLength_pos _ _ E) as Hs.
  unfold generate, generateSalt. rewrite randomBytes_half.
  destruct (Z.ltb_spec (saltLength this) 0) as [N|_]; [lia|].
  fold (salt_bytes this).
  destruct (Nat.leb_spec (salt_bytes this) (List.length src)) as [N|_]; [lia|].
  eexists. reflexivity.
Qed.

Lemma generate_source_too_short_three_bytes :
  exists cause,
    generate Sample.unavailable initializers Sample.value (firstn 3 Sample.source)
    = (Throw (StringHashError "Unable to generate salt." (Some cause)),
       firstn 3 Sample.source).
Proof.
  apply (generate_source_too_short Sample.unavailable None initializers).
  - reflexivity.
  - vm_compute. lia.
Defined.

(** X5: when the derivation throws [e] on the salt drawn, [generate] throws
    the error "Unable to generate hash." wrapping [e]; the salt bytes are
    taken from the source all the same. *)
Theorem generate_derivation_failure (pbkdf2Sync : KDF)
    (options : option StringHashOptions.t) (this : StringHasher) (value : string)
    (src : RandomSource) (e : Error) :
  constructor options = Return this ->
  (salt_bytes this <= List.length src)%nat ->
  pbkdf2Sync value (firstn (salt_bytes this) src) (iterations this)
    (inject_Z (buffLength this) / 2)%Q (algorythm this) = Throw e ->
  generate pbkdf2Sync this value src
  = (Throw (StringHashError "Unable to generate hash." (Some e)),
     skipn (salt_bytes this) src).
Proof.
  intros E L K. pose proof (constructor_saltLength_pos _ _ E) as Hs.
  unfold generate, generateSalt, generateHash. rewrite randomBytes_half.
  destruct (Z.ltb_spec (saltLength this) 0) as [N|_]; [lia|].
  fold (salt_bytes this).
  destruct (Nat.leb_spec (salt_bytes this) (List.length src)) as [_|N]; [|lia].
  cbn [try_catch_rethrow bind]. rewrite K. reflexivity.
Qed.

Lemma generate_derivation_failure_unavailable :
  generate Sample.unavailable initializers Sample.value Sample.source
  = (Throw (StringHashError "Unable to generate hash."
              (Some (NodeError "ERR_CRYPTO_OPERATION_FAILED"))),
     skipn (salt_bytes initializers) Sample.source).
Proof.
  apply (generate_derivation_failure Sample.unavailable None initializers).
  - reflexivity.
  - vm_compute. lia.
  - reflexivity.
Defined.

(** X6: whatever the instance, the key derivation function and the random
    source, an error that leaves [generate] is a [StringHashError] with one of
    its two messages and an inner error; an error of node's [crypto] never
    leaves it bare. *)
Theorem generate_throws_only_StringHashError (pbkdf2Sync : KDF) (this : StringHasher)
    (value : string) (src src' : RandomSource) (err : Error) :
  generate pbkdf2Sync this value src = (Throw err, src') ->
  exists cause,
    err = StringHashError "Unable to generate salt." (Some cause)
    \/ err = StringHashError "Unable to generate hash." (Some cause).
Proof.
  unfold generate, generateSalt, generateHash.
  destruct (randomBytes (inject_Z (saltLength this) / 2)%Q src) as [[salt|cause] rest].
  - cbn [try_catch_rethrow bind].
    destruct (pbkdf2Sync value salt (iterations this) _ (algorythm this)) as [key|cause];
      cbn [try_catch_rethrow bind]; intros G; [discriminate|].
    injection G as <- _. exists cause. now right.
  - cbn [try_catch_rethrow bind]. intros G.
    injection G as <- _. exists cause. now left.
Qed.

Lemma generate_throws_only_StringHashError_unavailable :
  exists cause,
    StringHashError "Unable to generate hash." (Some (NodeError "ERR_CRYPTO_OPERATION_FAILED"))
    = StringHashError "Unable to generate salt." (Some cause)
    \/ StringHashError "Unable to generate hash." (Some (NodeError "ERR_CRYPTO_OPERATION_FAILED"))
       = StringHashError "Unable to generate hash." (Some cause).
Proof.
  apply (generate_throws_only_StringHashError Sample.unavailable initializers Sample.value
           Sample.source (skipn 16 Sample.source)).
  reflexivity.
Defined.

(** X7: two calls of [generate] on one instance and one value that both
    return, return the same string exactly when they drew the same salt. *)
Theorem generate_same_output_iff_same_salt (pbkdf2Sync : KDF) (this : StringHasher)
    (value : string) (src1 src1' src2 src2' : RandomSource) (out1 out2 : string) :
  generate pbkdf2Sync this value src1 = (Return out1, src1') ->
  generate pbkdf2Sync this value src2 = (Return out2, src2') ->
  out1 = out2 <-> firstn (salt_bytes this) src1 = firstn (salt_bytes this) src2.
Proof.
  intros G1 G2. split.
  - intros E.
    destruct (list_eq_dec Byte.byte_eq_dec (firstn (salt_bytes this) src1)
                (firstn (salt_bytes this) src2)) as [S|S]; [exact S|].
    now destruct (generate_distinct_salts _ _ _ _ _ _ _ _ _ G1 G2 S).
  - intros S.
    apply generate_Return in G1. destruct G1 as (_ & _ & k1 & K1 & ->).
    apply generate_Return in G2. destruct G2 as (_ & _ & k2 & K2 & ->).
    rewrite S in K1 |- *. rewrite K1 in K2. injection K2 as <-. reflexivity.
Qed.

Lemma generate_same_output_iff_same_salt_readme :
  Sample.first_hash = Sample.second_hash
  <-> firstn (salt_bytes Sample.readme_hasher) Sample.source
      = firstn (salt_bytes Sample.readme_hasher) (skipn 16 Sample.source).
Proof.
  apply (generate_same_output_iff_same_salt Sample.pbkdf2Sync Sample.readme_hasher
           Sample.value Sample.source (skipn 16 Sample.source)
           (skipn 16 Sample.source) (skipn 32 Sample.source)).
  - vm_compute; reflexivity.
  - vm_compute; reflexivity.
Defined.

(** ** [validate] *)

Lemma buffer_eqb_eq (a b : Buffer) : BufferOps.eqb a b = true -> a = b.
Proof.
  revert b. induction a as [|x a IH]; intros [|y b]; cbn; try discriminate;
    [reflexivity|].
  intros H. apply andb_true_iff in H. destruct H as [Hx Hab].
  apply Byte.byte_dec_bl in Hx. subst y. now rewrite (IH b Hab).
Qed.

Lemma timingSafeEqual_true (a b : Buffer) : timingSafeEqual a b = Return true <-> a = b.
Proof.
  unfold timingSafeEqual. split.
  - destruct (List.length a =? List.length b)%nat; [|discriminate].
    intros E. injection E as E. now apply buffer_eqb_eq.
  - intros <-. now rewrite Nat.eqb_refl, buffer_eqb_refl.
Qed.

(** The three outcomes of the tests [validate] makes before it derives. *)
Lemma validate_checks (pbkdf2Sync : KDF) (this : StringHasher) (value hash : string) :
  (value <> "" /\ Z.of_nat (String.length hash) = hashLength this
   /\ String.substring 0 (String.length (signature this)) hash = signature this)
  \/ validate pbkdf2Sync this value hash = Return false.
Proof.
  destruct (string_dec value "") as [V|V].
  { right. subst value. apply validate_empty_value. }
  destruct (Z.eq_dec (Z.of_nat (String.length hash)) (hashLength this)) as [L|L].
  2: { right. now apply validate_wrong_length. }
  destruct (string_dec (String.substring 0 (String.length (signature this)) hash)
              (signature this)) as [S|S].
  2: { right. now apply validate_wrong_signature. }
  left. repeat split; assumption.
Qed.

(** X8: [validate] returns [true] exactly when the value is not empty, the
    hash has [hashLength] characters and starts with the signature, and the
    derivation from the value and the salt decoded from the hash returns the
    very bytes decoded from the hash's derived part. *)
Theorem validate_accepts_iff (pbkdf2Sync : KDF) (this : StringHasher) (value hash : string) :
  validate pbkdf2Sync this value hash = Return true <->
  value <> ""
  /\ Z.of_nat (String.length hash) = hashLength this
  /\ String.substring 0 (String.length (signature this)) hash = signature this
  /\ pbkdf2Sync value (BufferOps.from_hex (saltStr this hash)) (iterations this)
       (inject_Z (buffLength this) / 2)%Q (algorythm this)
     = Return (BufferOps.from_hex (hashStr this hash)).
Proof.
  split.
  - intros T.
    destruct (validate_checks pbkdf2Sync this value hash) as [(V & L & S)|F];
      [|rewrite F in T; discriminate].
    repeat split; try assumption.
    rewrite validate_slow_path in T by assumption.
    unfold generateHash in T. fold (saltStr this hash) in T. fold (hashStr this hash) in T.
    destruct (pbkdf2Sync value _ (iterations this) _ (algorythm this)) as [testBuff|e];
      cbn [try_catch_rethrow bind] in T; [|discriminate].
    apply timingSafeEqual_true in T. now rewrite T.
  - intros (V & L & S & K).
    rewrite validate_slow_path by assumption.
    unfold generateHash. fold (saltStr this hash). fold (hashStr this hash).
    rewrite K. cbn [try_catch_rethrow bind]. now apply timingSafeEqual_true.
Qed.

(** X9: [validate] throws in two situations only, both past its tests on the
    value, the length and the signature: the derivation throws [e], and the
    error is "Unable to generate hash." wrapping [e]; or the derivation returns
    a key whose length is not that of the bytes decoded from the hash, and the
    error is the bare one of [timingSafeEqual]. *)
Theorem validate_throws_iff (pbkdf2Sync : KDF) (this : StringHasher) (value hash : string)
    (err : Error) :
  validate pbkdf2Sync this value hash = Throw err <->
  value <> ""
  /\ Z.of_nat (String.length hash) = hashLength this
  /\ String.substring 0 (String.length (signature this)) hash = signature this
  /\ match pbkdf2Sync value (BufferOps.from_hex (saltStr this hash)) (iterations this)
             (inject_Z (buffLength this) / 2)%Q (algorythm this) with
     | Throw e => err = StringHashError "Unable to generate hash." (Some e)
     | Return testBuff =>
         List.length (BufferOps.from_hex (hashStr this hash)) <> List.length testBuff
         /\ err = NodeError "ERR_CRYPTO_TIMING_SAFE_EQUAL_LENGTH"
     end.
Proof.
  split.
  - intros T.
    destruct (validate_checks pbkdf2Sync this value hash) as [(V & L & S)|F];
      [|rewrite F in T; discriminate].
    repeat split; try assumption.
    rewrite validate_slow_path in T by assumption.
    unfold generateHash in T. fold (saltStr this hash) in T. fold (hashStr this hash) in T.
    destruct (pbkdf2Sync value _ (iterations this) _ (algorythm this)) as [testBuff|e];
      cbn [try_catch_rethrow bind] in T.
    + unfold timingSafeEqual in T.
      destruct (Nat.eqb_spec (List.length (BufferOps.from_hex (hashStr this hash)))
                  (List.length testBuff)) as [E|N]; [discriminate|].
      injection T as <-. now split.
    + now injection T as <-.
  - intros (V & L & S & K).
    rewrite validate_slow_path by assumption.
    unfold generateHash. fold (saltStr this hash). fold (hashStr this hash).
    destruct (pbkdf2Sync value _ (iterations this) _ (algorythm this)) as [testBuff|e];
      cbn [try_catch_rethrow bind].
    + destruct K as [N ->]. unfold timingSafeEqual.
      destruct (Nat.eqb_spec (List.length (BufferOps.from_hex (hashStr this hash)))
                  (List.length testBuff)) as [E|_]; [contradiction|reflexivity].
    + now subst err.
Qed.





(** What [validate] cuts out of a hash laid out by [generate]. *)
Lemma layout_parts (this : StringHasher) (key salt : Buffer) :
  well_formed this ->
  2 * Z.of_nat (List.length key) = buffLength this ->
  2 * Z.of_nat (List.length salt) = saltLength this ->
  Z.of_nat (String.length
              (signature this ++ BufferOps.toString_hex key ++ BufferOps.toString_hex salt))
  = hashLength this
  /\ String.substring 0 (String.length (signature this))
       (signature this ++ BufferOps.toString_hex key ++ BufferOps.toString_hex salt)
     = signature this
  /\ hashStr this
       (signature this ++ BufferOps.toString_hex key ++ BufferOps.toString_hex salt)
     = BufferOps.toString_hex key
  /\ saltStr this
       (signature this ++ BufferOps.toString_hex key ++ BufferOps.toString_hex salt)
     = BufferOps.toString_hex salt.
Proof.
  intros [Hs Hh _ _ _ Hb] Lk Ls.
  set (hk := BufferOps.toString_hex key).
  set (hs := BufferOps.toString_hex salt).
  assert (Lhk : Z.of_nat (String.length hk) = buffLength this).
  { subst hk. rewrite length_toString_hex. lia. }
  assert (Lhs : Z.of_nat (String.length hs) = saltLength this).
  { subst hs. rewrite length_toString_hex. lia. }
  unfold hashStr, saltStr, signature_length in *.
  split; [rewrite !length_append; lia|].
  split; [apply substring_0_append|].
  split.
  - rewrite js_substring_between by (rewrite ?length_append; lia).
    rewrite Nat2Z.id, substring_skip_append.
    replace (Z.to_nat (hashLength this - saltLength this
                       - Z.of_nat (String.length (signature this))))
      with (String.length hk) by lia.
    apply substring_0_append.
  - rewrite <- (append_assoc (signature this) hk hs).
    rewrite js_substring_from by (rewrite !length_append; lia).
    replace (Z.to_nat (Z.of_nat (String.length (signature this)) + buffLength this))
      with (String.length (signature this ++ hk)) by (rewrite length_append; lia).
    rewrite substring_skip_append.
    replace (Z.to_nat _) with (String.length hs) by (rewrite !length_append; lia).
    apply substring_0_length.
Qed.

(** X11: on a hash generated for [value] by an instance with even salt and
    buffer lengths, [validate] with another non-empty value on which the
    derivation returns does not throw: it returns [true] when the derivation
    gives for that value, with the salt of the hash, the key it gave for
    [value], and [false] otherwise. *)
Theorem validate_generated_with_other_value (pbkdf2Sync : KDF)
    (options : option StringHashOptions.t) (this : StringHasher) (value other : string)
    (src src' : RandomSource) (out : string) (key' : Buffer) :
  returns_keylen_bytes pbkdf2Sync ->
  constructor options = Return this ->
  Z.even (saltLength this) = true -> Z.even (buffLength this) = true ->
  other <> "" ->
  generate pbkdf2Sync this value src = (Return out, src') ->
  pbkdf2Sync other (firstn (salt_bytes this) src) (iterations this)
    (inject_Z (buffLength this) / 2)%Q (algorythm this) = Return key' ->
  (validate pbkdf2Sync this other out = Return true
   \/ validate pbkdf2Sync this other out = Return false)
  /\ (validate pbkdf2Sync this other out = Return true <->
      pbkdf2Sync value (firstn (salt_bytes this) src) (iterations this)
        (inject_Z (buffLength this) / 2)%Q (algorythm this) = Return key').
Proof.
  intros C E Es Eb V G K'.
  pose proof (constructor_well_formed _ _ E) as W.
  assert (Hb : 0 < buffLength this).
  { destruct W as [? ? _ _ Htt Hb]. lia. }
  pose proof (wf_salt _ W) as Hs.
  apply generate_Return in G. destruct G as (L & _ & key & K & ->).
  set (salt := firstn (salt_bytes this) src) in *.
  pose proof (C _ _ _ _ _ _ K) as Lk. rewrite Qfloor_half in Lk.
  pose proof (C _ _ _ _ _ _ K') as Lk'. rewrite Qfloor_half in Lk'.
  assert (Lsalt : 2 * Z.of_nat (List.length salt) = saltLength this).
  { subst salt. rewrite length_firstn, Nat.min_l by exact L. unfold salt_bytes.
    apply Z.even_spec in Es. destruct Es as [s Es].
    Z.to_euclidean_division_equations. lia. }
  assert (Lkey : 2 * Z.of_nat (List.length key) = buffLength this).
  { rewrite Lk. apply Z.even_spec in Eb. destruct Eb as [b Eb].
    Z.to_euclidean_division_equations. lia. }
  destruct (layout_parts this key salt W Lkey Lsalt) as (Lh & S & Hh & Hsalt).
  assert (T : validate pbkdf2Sync this other
                (signature this ++ BufferOps.toString_hex key ++ BufferOps.toString_hex salt)
              = timingSafeEqual key key').
  { rewrite validate_slow_path by assumption.
    fold (saltStr this (signature this ++ BufferOps.toString_hex key
                        ++ BufferOps.toString_hex salt)).
    fold (hashStr this (signature this ++ BufferOps.toString_hex key
                        ++ BufferOps.toString_hex salt)).
    rewrite Hh, Hsalt, !from_hex_toString_hex.
    unfold generateHash. rewrite K'. reflexivity. }
  rewrite T. split.
  - unfold timingSafeEqual.
    destruct (Nat.eqb_spec (List.length key) (List.length key')) as [_|N]; [|lia].
    destruct (BufferOps.eqb key key'); [now left|now right].
  - rewrite timingSafeEqual_true, K. split.
    + now intros ->.
    + intros Q. now injection Q.
Qed.

Lemma validate_generated_with_other_value_default :
  (validate Sample.pbkdf2Sync initializers Sample.other_value Sample.default_hash
   = Return true
   \/ validate Sample.pbkdf2Sync initializers Sample.other_value Sample.default_hash
      = Return false)
  /\ (validate Sample.pbkdf2Sync initializers Sample.other_value Sample.default_hash
      = Return true <->
      Sample.pbkdf2Sync Sample.value (firstn (salt_bytes initializers) Sample.source)
        (iterations initializers) (inject_Z (buffLength initializers) / 2)%Q
        (algorythm initializers)
      = Sample.pbkdf2Sync Sample.other_value
          (firstn (salt_bytes initializers) Sample.source)
          (iterations initializers) (inject_Z (buffLength initializers) / 2)%Q
          (algorythm initializers)).
Proof.
  assert (K : exists key',
             Sample.pbkdf2Sync Sample.other_value
               (firstn (salt_bytes initializers) Sample.source)
               (iterations initializers) (inject_Z (buffLength initializers) / 2)%Q
               (algorythm initializers) = Return key')
    by (eexists; vm_compute; reflexivity).
  destruct K as [key' K]. rewrite K.
  apply (validate_generated_with_other_value Sample.pbkdf2Sync None initializers
           Sample.value Sample.other_value Sample.source (skipn 16 Sample.source)
           Sample.default_hash key' sample_returns_keylen_bytes).
  - reflexivity.
  - reflexivity.
  - reflexivity.
  - unfold Sample.other_value. discriminate.
  - vm_compute; reflexivity.
  - exact K.
Defined.

(** ** The constructor, further *)

Lemma trimStart_starts_clean (s : string) : starts_clean (JS.trimStart s).
Proof.
  induction s as [|c s IH]; cbn; [exact I|].
  destruct (JS.is_white_space c) eqn:W; [exact IH|exact W].
Qed.

Lemma trimStart_of_clean (s : string) : starts_clean s -> JS.trimStart s = s.
Proof.
  destruct s as [|c s]; cbn; [reflexivity|]. now intros ->.
Qed.

Lemma trimEnd_starts_clean (s : string) : starts_clean s -> starts_clean (JS.trimEnd s).
Proof.
  destruct s as [|c s]; cbn; [trivial|].
  intros W. destruct (JS.trimEnd s); [rewrite W|]; exact W.
Qed.

Lemma trimEnd_idempotent (s : string) : JS.trimEnd (JS.trimEnd s) = JS.trimEnd s.
Proof.
  induction s as [|c s IH]; cbn [JS.trimEnd]; [reflexivity|].
  destruct (JS.trimEnd s) as [|k ks] eqn:T.
  - destruct (JS.is_white_space c) eqn:W; cbn [JS.trimEnd]; [reflexivity|].
    now rewrite W.
  - change (JS.trimEnd (String c (String k ks)))
      with (match JS.trimEnd (String k ks) with
            | EmptyString =>
                if JS.is_white_space c then EmptyString else String c EmptyString
            | kept => String c kept
            end).
    now rewrite IH.
Qed.

Lemma trim_idempotent (s : string) : JS.trim (JS.trim s) = JS.trim s.
Proof.
  unfold JS.trim.
  rewrite (trimStart_of_clean (JS.trimEnd (JS.trimStart s))).
  - apply trimEnd_idempotent.
  - apply trimEnd_starts_clean, trimStart_starts_clean.
Qed.

(** The signature the five assignments leave. *)
Lemma signature_assign (o : StringHashOptions.t) (this : StringHasher) :
  signature (assign o this)
  = match StringHashOptions.signature o with
    | Some s => if JS.truthy_string s then JS.trim s else signature this
    | None => signature this
    end.
Proof.
  destruct o as [sg al sa ha it]. unfold assign, assign_if.
  cbn [StringHashOptions.signature StringHashOptions.algorythm
       StringHashOptions.saltLength StringHashOptions.hashLength
       StringHashOptions.iterations].
  destruct sg as [s|]; [destruct (JS.truthy_string s)|];
    destruct al; destruct sa as [n1|]; try destruct (JS.truthy_number n1);
    destruct ha as [n2|]; try destruct (JS.truthy_number n2);
    destruct it as [n3|]; try destruct (JS.truthy_number n3); reflexivity.
Qed.

Lemma constructor_signature (o : StringHashOptions.t) (this : StringHasher) :
  constructor (Some o) = Return this ->
  signature this
  = match StringHashOptions.signature o with
    | Some s => if JS.truthy_string s then JS.trim s else "sha512"
    | None => "sha512"
    end.
Proof.
  cbn [constructor]. intros E. apply validating_Return in E.
  destruct E as (_ & _ & _ & _ & _ & ->).
  cbn [set_buffLength signature]. now rewrite signature_assign.
Qed.

Lemma constructor_signature_trimmed (options : option StringHashOptions.t)
    (this : StringHasher) :
  constructor options = Return this -> JS.trim (signature this) = signature this.
Proof.
  destruct options as [o|].
  - intros E. rewrite (constructor_signature _ _ E).
    destruct (StringHashOptions.signature o) as [s|]; [|reflexivity].
    destruct (JS.truthy_string s); [apply trim_idempotent|reflexivity].
  - cbn [constructor]. intros E. injection E as <-. reflexivity.
Qed.

(** X12: the signature of an instance the constructor returned is the
    supplied one with the white space at both ends removed, when one was
    supplied and is not empty, and ["sha512"] otherwise; in either case it
    neither starts nor ends with white space: trimming it changes nothing. *)
Theorem constructor_stores_trimmed_signature (o : StringHashOptions.t)
    (this : StringHasher) :
  constructor (Some o) = Return this ->
  signature this
  = match StringHashOptions.signature o with
    | Some EmptyString | None => "sha512"
    | Some s => JS.trim s
    end
  /\ JS.trim (signature this) = signature this.
Proof.
  intros E. split.
  - rewrite (constructor_signature _ _ E).
    destruct (StringHashOptions.signature o) as [[|c s]|]; reflexivity.
  - exact (constructor_signature_trimmed _ _ E).
Qed.

Lemma constructor_stores_trimmed_signature_blank :
  signature Sample.blank_signature_hasher
  = match StringHashOptions.signature Sample.blank_signature_options with
    | Some EmptyString | None => "sha512"
    | Some s => JS.trim s
    end
  /\ JS.trim (signature Sample.blank_signature_hasher)
     = signature Sample.blank_signature_hasher.
Proof.
  apply (constructor_stores_trimmed_signature Sample.blank_signature_options
           Sample.blank_signature_hasher).
  reflexivity.
Defined.

(** X13: an instance the constructor returned has the empty signature exactly
    when the options supplied a signature that is not empty and consists of
    white space only; the empty string itself leaves ["sha512"]. *)
Theorem empty_signature_iff_blank_option (o : StringHashOptions.t) (this : StringHasher) :
  constructor (Some o) = Return this ->
  signature this = "" <->
  exists s, StringHashOptions.signature o = Some s /\ s <> "" /\ JS.trim s = "".
Proof.
  intros E. rewrite (constructor_signature _ _ E).
  destruct (StringHashOptions.signature o) as [s|].
  - destruct s as [|c s]; cbn [JS.truthy_string String.eqb negb].
    + split; [discriminate|]. intros (s' & Q & N & _). injection Q as <-. now contradiction N.
    + split.
      * intros T. exists (String c s). repeat split; [discriminate|exact T].
      * intros (s' & Q & _ & T). injection Q as <-. exact T.
  - split; [discriminate|]. intros (s' & Q & _). discriminate.
Qed.

Lemma empty_signature_iff_blank_option_blank :
  signature Sample.blank_signature_hasher = "" <->
  exists s, StringHashOptions.signature Sample.blank_signature_options = Some s
            /\ s <> "" /\ JS.trim s = "".
Proof.
  apply (empty_signature_iff_blank_option Sample.blank_signature_options
           Sample.blank_signature_hasher).
  reflexivity.
Defined.

(** X14: in an instance the constructor returned whose lengths are integers
    that a double holds exactly, the derived part is at least one third of the
    hash and the salt at most half of it; when the options are small integers,
    the constructor run on doubles returns this very instance. *)
Theorem constructor_bounds (options : option StringHashOptions.t) (this : StringHasher) :
  constructor options = Return this ->
  exact_lengths this ->
  hashLength this <= 3 * buffLength this
  /\ 2 * saltLength this <= hashLength this
  /\ (Double.small_call options ->
      Double.constructor (option_map Double.of_options options)
      = Return (Double.of_instance this)).
Proof.
  intros E _. destruct (constructor_well_formed _ _ E) as [Hs Hh _ Hhalf Htt Hb].
  unfold signature_length in *. split; [lia|]. split; [lia|].
  exact (constructor_call_on_doubles _ _ E).
Qed.

Lemma constructor_bounds_odd_salt :
  hashLength Sample.odd_salt_hasher <= 3 * buffLength Sample.odd_salt_hasher
  /\ 2 * saltLength Sample.odd_salt_hasher <= hashLength Sample.odd_salt_hasher
  /\ (Double.small_call (Some Sample.odd_salt_options) ->
      Double.constructor (option_map Double.of_options (Some Sample.odd_salt_options))
      = Return (Double.of_instance Sample.odd_salt_hasher)).
Proof.
  apply (constructor_bounds (Some Sample.odd_salt_options) Sample.odd_salt_hasher).
  - reflexivity.
  - unfold exact_lengths. cbn. lia.
Defined.

(** X15: the fields of an instance the constructor returned, given back as
    options, build the same instance, provided its signature is not empty. *)
Theorem constructor_rebuilds_instance (options : option StringHashOptions.t)
    (this : StringHasher) :
  constructor options = Return this ->
  signature this <> "" ->
  constructor (Some (options_of this)) = Return this.
Proof.
  intros E N.
  pose proof (constructor_signature_trimmed _ _ E) as T.
  destruct (constructor_well_formed _ _ E) as [Hs Hh Hi Hhalf Htt Hb].
  destruct this as [sg al sa ha bu it].
  unfold signature_length in *.
  cbn [signature saltLength hashLength buffLength iterations] in *.
  cbn [constructor]. rewrite validating_cases.
  unfold assign, assign_if, options_of, JS.truthy_string, JS.truthy_number,
    signature_length.
  cbn [StringHashOptions.signature StringHashOptions.algorythm
       StringHashOptions.saltLength StringHashOptions.hashLength
       StringHashOptions.iterations signature algorythm saltLength hashLength iterations].
  destruct (String.eqb_spec sg "") as [Q|_]; [contradiction|].
  destruct (Z.eqb_spec sa 0) as [Q|_]; [lia|].
  destruct (Z.eqb_spec ha 0) as [Q|_]; [lia|].
  destruct (Z.eqb_spec it 0) as [Q|_]; [lia|].
  cbn [negb set_signature set_algorythm set_saltLength set_hashLength set_iterations
       signature algorythm saltLength hashLength buffLength iterations initializers
       set_buffLength].
  rewrite T.
  destruct (Z.leb_spec sa 0); [lia|].
  destruct (Z.leb_spec ha 0); [lia|].
  destruct (Z.ltb_spec it 1000); [lia|].
  destruct (Z.ltb_spec ha (2 * sa)); [lia|].
  destruct (Z.ltb_spec (2 * ha) (3 * (sa + Z.of_nat (String.length sg)))); [lia|].
  now rewrite <- Hb.
Qed.

Lemma constructor_rebuilds_instance_readme :
  constructor (Some (options_of Sample.readme_hasher)) = Return Sample.readme_hasher.
Proof.
  apply (constructor_rebuilds_instance (Some Sample.readme_options) Sample.readme_hasher).
  - reflexivity.
  - cbn. discriminate.
Defined.

(** ** The empty value *)

(** X16: [generate] does hash the empty value: on an instance the constructor
    returned it returns whenever the source holds the salt and the derivation
    returns; but [validate] returns [false] for the empty value on the very
    string [generate] returned for it. *)
Theorem empty_value_is_hashed_but_never_validated (pbkdf2Sync : KDF)
    (options : option StringHashOptions.t) (this : StringHasher)
    (src : RandomSource) (key : Buffer) :
  constructor options = Return this ->
  (salt_bytes this <= List.length src)%nat ->
  pbkdf2Sync "" (firstn (salt_bytes this) src) (iterations this)
    (inject_Z (buffLength this) / 2)%Q (algorythm this) = Return key ->
  exists out,
    generate pbkdf2Sync this "" src = (Return out, skipn (salt_bytes this) src)
    /\ validate pbkdf2Sync this "" out = Return false.
Proof.
  intros E L K. pose proof (constructor_saltLength_pos _ _ E) as Hs.
  exists (signature this ++ BufferOps.toString_hex key
          ++ BufferOps.toString_hex (firstn (salt_bytes this) src)).
  split; [|apply validate_empty_value].
  unfold generate, generateSalt, generateHash. rewrite randomBytes_half.
  destruct (Z.ltb_spec (saltLength this) 0) as [N|_]; [lia|].
  fold (salt_bytes this).
  destruct (Nat.leb_spec (salt_bytes this) (List.length src)) as [_|N]; [|lia].
  cbn [try_catch_rethrow bind]. rewrite K. cbn [try_catch_rethrow bind].
  unfold BufferOps.concat. cbn [List.concat].
  now rewrite app_nil_r, toString_hex_app.
Qed.

Lemma empty_value_is_hashed_but_never_validated_default :
  exists out,
    generate Sample.pbkdf2Sync initializers "" Sample.source
    = (Return out, skipn (salt_bytes initializers) Sample.source)
    /\ validate Sample.pbkdf2Sync initializers "" out = Return false.
Proof.
  assert (K : exists key,
             Sample.pbkdf2Sync "" (firstn (salt_bytes initializers) Sample.source)
               (iterations initializers) (inject_Z (buffLength initializers) / 2)%Q
               (algorythm initializers) = Return key)
    by (eexists; vm_compute; reflexivity).
  destruct K as [key K].
  apply (empty_value_is_hashed_but_never_validated Sample.pbkdf2Sync None initializers
           Sample.source key).
  - reflexivity.
  - vm_compute. lia.
  - exact K.
Defined.
